(** * engo/common/level.go: tile-map levels

    A shallow embedding of the coordinate strategies ([setupOrientation],
    [MapToPosition], [PositionToMap]), of the tileset slicer
    ([createTileset]) and of the layer assembler ([createLevelTiles]),
    followed by the properties of the level specification.

    Conventions of the embedding:
    - Go [int] is the 64-bit signed integer: a [Z] with the wrap-around of
      each arithmetic operation written out ([GoInt]).
    - Go [float32] is IEEE 754 binary32, every operation rounded on its own
      to nearest-even ([F32], on the Standard Library's [SpecFloat]); no
      multiplication is fused with an addition, as on amd64.
    - A Go function that mutates the level through its pointer receiver takes
      the level and returns the new level next to its results.
    - A run-time panic is an outcome of its own ([Panicked]), never an error
      value: the Go functions that can panic here have no error result. *)

From Stdlib Require Import String.
From Stdlib Require Import ZArith QArith List Bool Lia.
From Stdlib Require Import Floats.SpecFloat.
Import ListNotations.

Local Open Scope Z_scope.

(** ** Go's [int] *)

Module GoInt.

Definition min_int : Z := - 2 ^ 63.
Definition max_int : Z := 2 ^ 63 - 1.

(** Two's complement wrap-around into [min_int .. max_int]. *)
Definition wrap (z : Z) : Z := (z + 2 ^ 63) mod 2 ^ 64 - 2 ^ 63.

Definition in_range (z : Z) : Prop := min_int <= z <= max_int.

Definition add (a b : Z) : Z := wrap (a + b).
Definition sub (a b : Z) : Z := wrap (a - b).
Definition mul (a b : Z) : Z := wrap (a * b).

(** [a / b] and [a % b] for [b <> 0]: the quotient is truncated toward
    zero and the remainder has the sign of the dividend. The caller
    checks [b = 0], where Go panics. *)
Definition quot (a b : Z) : Z := wrap (Z.quot a b).
Definition rem (a b : Z) : Z := Z.rem a b.

End GoInt.

(** ** Go's [float32] *)

Module F32.

Definition prec : Z := 24.
Definition emax : Z := 128.

Definition t : Type := spec_float.

Definition add : t -> t -> t := SFadd prec emax.
Definition sub : t -> t -> t := SFsub prec emax.
Definition mul : t -> t -> t := SFmul prec emax.
Definition div : t -> t -> t := SFdiv prec emax.

(** The conversion [float32(n)] of an [int]: the nearest binary32, ties to
    even. *)
Definition of_int (n : Z) : t := binary_normalize prec emax n 0 false.

(** The integer part of a finite value, the fraction discarded (toward
    zero). *)
Definition trunc (f : t) : option Z :=
  match f with
  | S754_zero _ => Some 0
  | S754_finite s m e => Some (cond_Zopp s (Z.shiftl (Zpos m) e))
  | S754_infinity _ | S754_nan => None
  end.

(** The conversion [int(f)]. The language leaves the result open when the
    value does not fit; the amd64 instruction the compiler emits
    (CVTTSS2SI) then gives the smallest [int], which is what is modelled. *)
Definition to_int (f : t) : Z :=
  match trunc f with
  | Some z =>
      if (GoInt.min_int <=? z) && (z <=? GoInt.max_int) then z
      else GoInt.min_int
  | None => GoInt.min_int
  end.

Definition zero : t := S754_zero false.
Definition one : t := of_int 1.

(** The rational a finite value denotes, in lowest terms; infinities and
    NaN denote none. Used to read results, not by the program. *)
Definition to_Q (f : t) : option Q :=
  match f with
  | S754_zero _ => Some (0 # 1)%Q
  | S754_finite s m e =>
      Some (Qred (match e with
                  | Zneg k => (cond_Zopp s (Zpos m) # Pos.shiftl 1 (Npos k))%Q
                  | _ => (cond_Zopp s (Z.shiftl (Zpos m) e) # 1)%Q
                  end))
  | S754_infinity _ | S754_nan => None
  end.

End F32.

Definition f32 : Type := F32.t.

(** ** engo.Point *)

Record Point : Type := mkPoint { X : f32; Y : f32 }.

Definition set_X (p : Point) (x : f32) : Point := mkPoint x (Y p).
Definition set_Y (p : Point) (y : f32) : Point := mkPoint (X p) y.

(** The zero value of a [Point]. *)
Definition Point_zero : Point := mkPoint F32.zero F32.zero.

(** engo.AABB *)
Record AABB : Type := mkAABB { Min : Point; Max : Point }.

(** ** Textures, tiles, layers *)

Record Property : Type := mkProperty { Type_ : string; Value : string }.

(** An opaque handle of a texture on the GPU ([*gl.Texture]). *)
Definition TextureId : Type := Z.

(** Modelled from the spec: the declaration of [Texture] (an atlas region:
    the shared texture handle, the pixel width and height of the region and
    its UV box) is not in the sources at hand; its fields are the ones
    [createTileset] fills in, and [Height()]/[Width()] return the pixel
    height and width of the region. *)
Record Texture : Type := mkTexture {
  id : TextureId;
  Texture_width : f32;
  Texture_height : f32;
  viewport : AABB
}.

Definition Texture_Height (t : Texture) : f32 := Texture_height t.
Definition Texture_Width (t : Texture) : f32 := Texture_width t.

(** Modelled from the spec: the declaration of [TextureResource] (a loaded
    sprite sheet) is not in the sources at hand; [createTileset] reads its
    handle and its [float32] pixel width and height. *)
Record TextureResource : Type := mkTextureResource {
  TextureResource_Texture : TextureId;
  TextureResource_Width : f32;
  TextureResource_Height : f32
}.

(** [Image] is a pointer: [None] is [nil]. [Properties] is a Go map, read by
    key only; a [nil] map is the empty list. *)
Record tile : Type := mkTile {
  tile_Point : Point;
  Image : option Texture;
  tile_Properties : list (string * Property)
}.

(** The zero value [&tile{}]. *)
Definition tile_zero : tile := mkTile Point_zero None [].

Record tilesheet : Type := mkTilesheet {
  tilesheet_Image : TextureResource;
  tilesheet_TileWidth : Z;
  tilesheet_TileHeight : Z;
  Firstgid : Z;
  tilesheet_Properties : list (string * Property)
}.

(** [TileMapping] is a [[]uint32]: its entries are naturals (below 2^32). *)
Record layer : Type := mkLayer {
  layer_Name : string;
  layer_Width : Z;
  layer_Height : Z;
  TileMapping : list N;
  layer_Properties : list (string * Property)
}.

(** The embedded [*Level] of a [TileLayer] points back at the level that is
    threaded through the functions below; it is not a field of the record. *)
Record TileLayer : Type := mkTileLayer {
  Name : string;
  Width : Z;
  Height : Z;
  Tiles : list tile;
  Properties : list (string * Property)
}.

(** ** Level *)

(** The closure stored in [MapMaxBounds] captures the level pointer and
    reads the tile size and the cell counts when it is called; it is
    represented by the branch of [setupOrientation] that made it and is
    applied to the level by [call_MapMaxBounds]. *)
Inductive BoundsFn : Type :=
| OrthogonalBounds
| IsometricBounds
| StaggeredBounds.

(** [MapToPoint] and [PointToMap] capture the four tile constants by value:
    they are functions on points. They update their argument in place and
    return it; no caller keeps another reference to that point.
    The image and object layers of a level are neither read nor written by
    the functions below and are left out. *)
Record Level : Type := mkLevel {
  Orientation : string;
  MapToPoint : option (Point -> Point);
  PointToMap : option (Point -> Point);
  MapMaxBounds : option BoundsFn;
  RenderOrder : string;
  width : Z;
  height : Z;
  Offset : Point;
  TileWidth : Z;
  TileHeight : Z;
  NextObjectId : Z;
  TileLayers : list TileLayer;
  Level_Properties : list (string * Property)
}.

Definition set_strategy (lvl : Level)
    (m2p p2m : Point -> Point) (b : BoundsFn) : Level :=
  mkLevel (Orientation lvl) (Some m2p) (Some p2m) (Some b)
          (RenderOrder lvl) (width lvl) (height lvl) (Offset lvl)
          (TileWidth lvl) (TileHeight lvl) (NextObjectId lvl)
          (TileLayers lvl) (Level_Properties lvl).

Definition set_Orientation (lvl : Level) (o : string) : Level :=
  mkLevel o (MapToPoint lvl) (PointToMap lvl) (MapMaxBounds lvl)
          (RenderOrder lvl) (width lvl) (height lvl) (Offset lvl)
          (TileWidth lvl) (TileHeight lvl) (NextObjectId lvl)
          (TileLayers lvl) (Level_Properties lvl).

Definition call_MapMaxBounds (b : BoundsFn) (lvl : Level) : Point :=
  match b with
  | OrthogonalBounds =>
      mkPoint (F32.of_int (GoInt.mul (TileWidth lvl) (width lvl)))
              (F32.of_int (GoInt.mul (TileHeight lvl) (height lvl)))
  | IsometricBounds | StaggeredBounds =>
      mkPoint
        (F32.add (F32.of_int (GoInt.mul (TileWidth lvl) (width lvl)))
                 (F32.of_int (GoInt.quot (TileWidth lvl) 2)))
        (F32.add (F32.of_int (GoInt.mul (GoInt.quot (TileHeight lvl) 2)
                                        (height lvl)))
                 (F32.of_int (GoInt.quot (TileHeight lvl) 2)))
  end.

(** ** Outcomes and the level as state *)

(** Errors returned as values. [UnsupportedOrientation o] stands for
    [fmt.Errorf("Level: Unsupported orientation %v", o)]. *)
Inductive error : Type :=
| UnsupportedOrientation (orientation : string).

(** Run-time panics. *)
Inductive panic : Type :=
| IndexOutOfRange (index length : Z)
| NilDereference
| DivideByZero.

Inductive outcome (A : Type) : Type :=
| Returned (a : A)
| Panicked (p : panic).

Arguments Returned {A} a.
Arguments Panicked {A} p.

(** A computation on the level behind the pointer [lvl]. *)
Definition M (A : Type) : Type := Level -> outcome (A * Level).

Definition ret {A} (a : A) : M A := fun lvl => Returned (a, lvl).

Definition bind {A B} (c : M A) (k : A -> M B) : M B :=
  fun lvl =>
    match c lvl with
    | Returned (a, lvl') => k a lvl'
    | Panicked p => Panicked p
    end.

Definition get : M Level := fun lvl => Returned (lvl, lvl).
Definition put (lvl' : Level) : M unit := fun _ => Returned (tt, lvl').
Definition throw {A} (p : panic) : M A := fun _ => Panicked p.

Notation "x <- c ;; k" := (bind c (fun x => k))
  (at level 61, c at next level, right associativity).

(** What a run returns, the level put aside. *)
Definition result {A} (o : outcome (A * Level)) : outcome A :=
  match o with
  | Returned (a, _) => Returned a
  | Panicked p => Panicked p
  end.

(** Calling a function value: a [nil] one panics. *)
Definition call {A B} (f : option (A -> B)) (a : A) : M B :=
  match f with
  | Some f => ret (f a)
  | None => throw NilDereference
  end.

(** The three pairs of closures of [setupOrientation]. *)

Definition orthogonal_MapToPoint (tw th : f32) (m : Point) : Point :=
  let m := set_X m (F32.mul (X m) tw) in
  let m := set_Y m (F32.mul (Y m) th) in
  m.

Definition orthogonal_PointToMap (tw th : f32) (p : Point) : Point :=
  let p := set_X p (F32.div (X p) tw) in
  let p := set_Y p (F32.div (Y p) th) in
  p.

Definition isometric_MapToPoint (hw hh : f32) (m : Point) : Point :=
  let m := set_X m (F32.mul (F32.sub (X m) (Y m)) hw) in
  let m := set_Y m (F32.mul (F32.add (X m) (Y m)) hh) in
  m.

Definition isometric_PointToMap (tw th : f32) (p : Point) : Point :=
  let p := set_X p (F32.div (F32.add (X p) (Y p)) tw) in
  let p := set_Y p (F32.div (F32.sub (Y p) (X p)) th) in
  p.

Definition staggered_MapToPoint (tw hw hh : f32) (m : Point) : Point :=
  let staggerX := F32.of_int 0 in
  let staggerX :=
    if Z.eqb (GoInt.rem (F32.to_int (Y m)) 2) 1 then hw else staggerX in
  let m := set_X m (F32.add (F32.mul (X m) tw) staggerX) in
  let m := set_Y m (F32.mul (Y m) hh) in
  m.

Definition staggered_PointToMap (tw th hw : f32) (p : Point) : Point :=
  let Y0 := Y p in
  let p := set_Y p (F32.div (F32.sub (Y p) (X p)) th) in
  let staggerX := F32.of_int 0 in
  let staggerX :=
    if Z.eqb (GoInt.rem (F32.to_int (Y p)) 2) 1 then hw else staggerX in
  let p := set_X p (F32.div (F32.sub (F32.add (X p) Y0) staggerX) tw) in
  p.

(** [setupOrientation]; the result is the returned error, [None] for
    [nil]. *)
Definition setupOrientation : M (option error) :=
  lvl <- get ;;
  let tw := F32.of_int (TileWidth lvl) in
  let th := F32.of_int (TileHeight lvl) in
  let hw := F32.of_int (GoInt.quot (TileWidth lvl) 2) in
  let hh := F32.of_int (GoInt.quot (TileHeight lvl) 2) in
  if String.eqb (Orientation lvl) "orthogonal" then
    _ <- put (set_strategy lvl (orthogonal_MapToPoint tw th)
                (orthogonal_PointToMap tw th) OrthogonalBounds) ;;
    ret None
  else if String.eqb (Orientation lvl) "isometric" then
    _ <- put (set_strategy lvl (isometric_MapToPoint hw hh)
                (isometric_PointToMap tw th) IsometricBounds) ;;
    ret None
  else if String.eqb (Orientation lvl) "staggered" then
    _ <- put (set_strategy lvl (staggered_MapToPoint tw hw hh)
                (staggered_PointToMap tw th hw) StaggeredBounds) ;;
    ret None
  else
    ret (Some (UnsupportedOrientation (Orientation lvl))).

(** [MapToPosition]; the result is the returned pair: the point with a
    [nil] error, or a [nil] point with the error. *)
Definition MapToPosition (mp : Point) : M (Point + error) :=
  lvl <- get ;;
  err <- match MapToPoint lvl with
         | None => setupOrientation
         | Some _ => ret None
         end ;;
  match err with
  | Some err => ret (inr err)
  | None =>
      let mpc := mkPoint (X mp) (Y mp) in
      lvl <- get ;;
      mpc <- call (MapToPoint lvl) mpc ;;
      let mpc := set_X mpc (F32.add (X mpc) (X (Offset lvl))) in
      let mpc := set_Y mpc (F32.add (Y mpc) (Y (Offset lvl))) in
      ret (inl mpc)
  end.

Definition PositionToMap (p : Point) : M (Point + error) :=
  lvl <- get ;;
  err <- match PointToMap lvl with
         | None => setupOrientation
         | Some _ => ret None
         end ;;
  match err with
  | Some err => ret (inr err)
  | None =>
      let mp := mkPoint (X p) (Y p) in
      lvl <- get ;;
      let mp := set_X mp (F32.sub (X mp) (X (Offset lvl))) in
      let mp := set_Y mp (F32.sub (Y mp) (Y (Offset lvl))) in
      mp <- call (PointToMap lvl) mp ;;
      ret (inl mp)
  end.

(** Modelled from the spec: [Point.Add] belongs to the engo package, which
    is not in the sources at hand; the bounds of a level are its offset and
    its offset plus the extent, so [Add] adds the coordinates of its
    argument to the receiver, in place. *)
Definition Point_Add (p p2 : Point) : Point :=
  let p := set_X p (F32.add (X p) (X p2)) in
  let p := set_Y p (F32.add (Y p) (Y p2)) in
  p.

(** [Bounds]: calling the [nil] function value panics. *)
Definition Bounds : M AABB :=
  lvl <- get ;;
  match MapMaxBounds lvl with
  | None => throw NilDereference
  | Some b =>
      let max := call_MapMaxBounds b lvl in
      let max := Point_Add max (Offset lvl) in
      ret (mkAABB (Offset lvl) max)
  end.

(** [Width] and [Height] of the level. *)
Definition Level_Width : M Z := lvl <- get ;; ret (width lvl).
Definition Level_Height : M Z := lvl <- get ;; ret (height lvl).

(** ** Loops *)

(** [for i := start; i < start + count; i++ { acc = body(i, acc) }]. *)
Fixpoint for_loop {A} (count : nat) (i : Z) (body : Z -> A -> M A) (acc : A)
  : M A :=
  match count with
  | O => ret acc
  | S count' =>
      acc' <- body i acc ;;
      for_loop count' (i + 1) body acc'
  end.

(** [for i := 0; i < n; i++ { ... }]: no iteration when [n <= 0]. *)
Definition for_upto {A} (n : Z) (body : Z -> A -> M A) (acc : A) : M A :=
  for_loop (Z.to_nat n) 0 body acc.

(** [for _, x := range xs { acc = body(x, acc) }]. *)
Fixpoint for_range {A B} (xs : list B) (body : B -> A -> M A) (acc : A)
  : M A :=
  match xs with
  | [] => ret acc
  | x :: xs' =>
      acc' <- body x acc ;;
      for_range xs' body acc'
  end.

(** The element at index [i] of a slice, when [i] is in range. *)
Definition lookup {A} (xs : list A) (i : Z) : option A :=
  if (0 <=? i) && (i <? Z.of_nat (List.length xs)) then
    nth_error xs (Z.to_nat i)
  else None.

(** Indexing a slice, [xs[i]]: out of range panics. *)
Definition index {A} (xs : list A) (i : Z) : M A :=
  match lookup xs i with
  | Some x => ret x
  | None => throw (IndexOutOfRange i (Z.of_nat (List.length xs)))
  end.

(** ** createTileset *)

(** The tile cut for index [i] of a sheet; [i % int(setWidth)] panics when
    the divisor is zero. *)
Definition sheetTile (sheet : tilesheet) (tw th setWidth : f32) (i : Z)
  : M tile :=
  let t := tile_zero in
  let cols := F32.to_int setWidth in
  if cols =? 0 then throw DivideByZero
  else
    let x := F32.mul (F32.of_int (GoInt.rem i cols)) tw in
    let y := F32.mul (F32.of_int (GoInt.quot i cols)) th in
    let invTexWidth :=
      F32.div F32.one (TextureResource_Width (tilesheet_Image sheet)) in
    let invTexHeight :=
      F32.div F32.one (TextureResource_Height (tilesheet_Image sheet)) in
    let u := F32.mul x invTexWidth in
    let v := F32.mul y invTexHeight in
    let u2 := F32.mul (F32.add x tw) invTexWidth in
    let v2 := F32.mul (F32.add y th) invTexHeight in
    ret (mkTile (tile_Point t)
           (Some (mkTexture (TextureResource_Texture (tilesheet_Image sheet))
                    tw th (mkAABB (mkPoint u v) (mkPoint u2 v2))))
           (tile_Properties t)).

Definition createTileset (sheets : list tilesheet) : M (list tile) :=
  let tileset := [] in
  for_range sheets
    (fun sheet tileset =>
       let tw := F32.of_int (tilesheet_TileWidth sheet) in
       let th := F32.of_int (tilesheet_TileHeight sheet) in
       let setWidth :=
         F32.div (TextureResource_Width (tilesheet_Image sheet)) tw in
       let setHeight :=
         F32.div (TextureResource_Height (tilesheet_Image sheet)) th in
       let totalTiles := F32.to_int (F32.mul setWidth setHeight) in
       for_upto totalTiles
         (fun i tileset =>
            t <- sheetTile sheet tw th setWidth i ;;
            ret (tileset ++ [t]))
         tileset)
    tileset.

(** ** createLevelTiles *)

(** The body of the inner loop up to the [append]: the tile of cell
    [(x, i)]. The error of [MapToPosition] is dropped; with it the point is
    [nil] and the update of [tp.Y] panics. *)
Definition placeTile (mapping : list N) (ts : list tile) (i x : Z) : M tile :=
  lvl <- get ;;
  let idx := x + i * width lvl in
  let t := tile_zero in
  entry <- index mapping idx ;;
  let tileIdx := Z.of_N entry - 1 in
  if 0 <=? tileIdx then
    src <- index ts tileIdx ;;
    let t := mkTile (tile_Point t) (Image src) (tile_Properties t) in
    r <- MapToPosition (mkPoint (F32.of_int x) (F32.of_int i)) ;;
    lvl <- get ;;
    match r, Image t with
    | inl tp, Some img =>
        let tp :=
          set_Y tp (F32.sub (Y tp)
                      (F32.sub (Texture_Height img)
                               (F32.of_int (TileHeight lvl)))) in
        ret (mkTile tp (Image t) (tile_Properties t))
    | _, _ => throw NilDereference
    end
  else ret t.

Definition createLevelTiles (layers : list layer) (ts : list tile)
  : M (list TileLayer) :=
  let levelTileLayers := [] in
  for_range layers
    (fun layer levelTileLayers =>
       let tilemap := [] in
       let mapping := TileMapping layer in
       lvl <- get ;;
       tilemap <-
         for_upto (height lvl)
           (fun i tilemap =>
              lvl <- get ;;
              for_upto (width lvl)
                (fun x tilemap =>
                   t <- placeTile mapping ts i x ;;
                   ret (tilemap ++ [t]))
                tilemap)
           tilemap ;;
       ret (levelTileLayers ++
            [mkTileLayer (layer_Name layer) (layer_Width layer)
               (layer_Height layer) tilemap []]))
    levelTileLayers.

Arguments F32.add : simpl never.
Arguments F32.sub : simpl never.
Arguments F32.mul : simpl never.
Arguments F32.div : simpl never.
Arguments F32.of_int : simpl never.
Arguments F32.to_int : simpl never.
Arguments GoInt.mul : simpl never.
Arguments GoInt.quot : simpl never.
Arguments GoInt.rem : simpl never.

(** ** Tiles of a layer *)

(** [GetTile]: the layer's embedded [*Level] is the level of the run. The
    error of [PositionToMap] is dropped; with it the point is [nil] and
    reading [mp.X] panics. *)
Definition GetTile (l : TileLayer) (p : Point) : M tile :=
  r <- PositionToMap p ;;
  match r with
  | inr _ => throw NilDereference
  | inl mp =>
      lvl <- get ;;
      let tidx :=
        GoInt.add (F32.to_int (X mp))
                  (GoInt.mul (F32.to_int (Y mp)) (width lvl)) in
      index (Tiles l) tidx
  end.

(** The methods of a tile that read its image: a [nil] image panics. *)
Definition tile_Height (t : tile) : outcome f32 :=
  match Image t with
  | Some img => Returned (Texture_Height img)
  | None => Panicked NilDereference
  end.

Definition tile_Width (t : tile) : outcome f32 :=
  match Image t with
  | Some img => Returned (Texture_Width img)
  | None => Panicked NilDereference
  end.

Definition tile_Texture (t : tile) : outcome TextureId :=
  match Image t with
  | Some img => Returned (id img)
  | None => Panicked NilDereference
  end.

(** Reading a Go map by key, [v, ok := m[k]]; a [nil] map has no key. *)
Fixpoint map_get {V} (m : list (string * V)) (k : string) : option V :=
  match m with
  | [] => None
  | (k', v) :: m' => if String.eqb k' k then Some v else map_get m' k
  end.

Definition IsWalkable (t : tile) : bool :=
  match map_get (tile_Properties t) "walkable" with
  | Some p => if String.eqb (Value p) "true" then true else false
  | None => false
  end.

(** ** Definitions used in the statements *)

(** The orientations [setupOrientation] knows. *)
Definition supported (o : string) : Prop :=
  o = "orthogonal"%string \/ o = "isometric"%string \/ o = "staggered"%string.

(** The invariant of the strategy slots: they are all unset, or they are
    what [setupOrientation] stored when it was run on this level with its
    slots unset. Only [setupOrientation] assigns them, and the orientation
    of a level does not change. *)
Definition memoized (lvl : Level) : Prop :=
  (MapToPoint lvl = None /\ PointToMap lvl = None /\ MapMaxBounds lvl = None)
  \/ exists lvl0,
       MapToPoint lvl0 = None /\ PointToMap lvl0 = None
       /\ MapMaxBounds lvl0 = None
       /\ setupOrientation lvl0 = Returned (None, lvl).

(** A whole number as a [float32] point. *)
Definition cell (x y : Z) : Point := mkPoint (F32.of_int x) (F32.of_int y).

(** The point [MapToPosition] builds from the closure [f]. *)
Definition placed (f : Point -> Point) (lvl : Level) (c : Point) : Point :=
  mkPoint (F32.add (X (f (mkPoint (X c) (Y c)))) (X (Offset lvl)))
          (F32.add (Y (f (mkPoint (X c) (Y c)))) (Y (Offset lvl))).

(** The point [PositionToMap] hands to the closure [g]. *)
Definition unplaced (g : Point -> Point) (lvl : Level) (p : Point) : Point :=
  g (mkPoint (F32.sub (X p) (X (Offset lvl))) (F32.sub (Y p) (Y (Offset lvl)))).

(** The round trip of one cell: place it, map the point back, and compare
    the coordinates as numbers. *)
Definition round_trip_exact (lvl : Level) (x y : Z) : bool :=
  match MapToPosition (cell x y) lvl with
  | Returned (inl pt, lvl1) =>
      match PositionToMap pt lvl1 with
      | Returned (inl back, _) =>
          match F32.to_Q (X back), F32.to_Q (Y back) with
          | Some bx, Some by_ => Qeq_bool bx (x # 1) && Qeq_bool by_ (y # 1)
          | _, _ => false
          end
      | _ => false
      end
  | _ => false
  end.

(** The cells of a grid of [w] x [h]. *)
Definition cells (w h : Z) : list (Z * Z) :=
  list_prod (map Z.of_nat (seq 0 (Z.to_nat w)))
            (map Z.of_nat (seq 0 (Z.to_nat h))).

(** The UV box of a tile as four numbers: u, v, u2, v2. *)
Definition uv_box (t : tile) : option (Q * Q * Q * Q) :=
  match Image t with
  | Some img =>
      match F32.to_Q (X (Min (viewport img))), F32.to_Q (Y (Min (viewport img))),
            F32.to_Q (X (Max (viewport img))), F32.to_Q (Y (Max (viewport img)))
      with
      | Some u, Some v, Some u2, Some v2 => Some (u, v, u2, v2)
      | _, _, _, _ => None
      end
  | None => None
  end.

(** The levels a run that starts from [lvl0] goes through: [lvl0] itself
    and, when its [MapToPoint] is unset, the level [setupOrientation] makes
    of it. *)
Definition settled (lvl0 s : Level) : Prop :=
  s = lvl0
  \/ (MapToPoint lvl0 = None /\ setupOrientation lvl0 = Returned (None, s)).

(** [t] is the tile [placeTile] makes for cell [(x, i)] on the level the
    run starts from. *)
Definition cell_tile (lvl0 : Level) (mapping : list N) (ts : list tile)
    (i x : Z) (t : tile) : Prop :=
  exists s, placeTile mapping ts i x lvl0 = Returned (t, s).

(** [tl] is assembled from [l]: its name and declared size are copied, and
    its tiles are the tiles of the [width] x [height] cells of the level,
    row after row. *)
Definition assembled (lvl0 : Level) (ts : list tile) (l : layer)
    (tl : TileLayer) : Prop :=
  Name tl = layer_Name l
  /\ Width tl = layer_Width l
  /\ Height tl = layer_Height l
  /\ List.length (Tiles tl)
     = (Z.to_nat (height lvl0) * Z.to_nat (width lvl0))%nat
  /\ forall i x, 0 <= i < height lvl0 -> 0 <= x < width lvl0 ->
       exists t, lookup (Tiles tl) (x + i * width lvl0) = Some t
                 /\ cell_tile lvl0 (TileMapping l) ts i x t.

(** The level, the layers and the tileset fit: every cell of the level has
    a mapping entry in every layer, and an entry that is not 0 names a tile
    of the tileset that has an image, on a level whose [MapToPoint] is set
    or whose orientation is supported. *)
Definition assemblable (lvl : Level) (layers : list layer) (ts : list tile)
  : Prop :=
  forall l row x,
    In l layers -> 0 <= row < height lvl -> 0 <= x < width lvl ->
    exists entry,
      lookup (TileMapping l) (x + row * width lvl) = Some entry
      /\ (entry <> 0%N ->
          (exists atlas img,
              lookup ts (Z.of_N entry - 1) = Some atlas
              /\ Image atlas = Some img)
          /\ (MapToPoint lvl <> None \/ supported (Orientation lvl))).

(** Two levels agree on every field that is not a strategy slot. *)
Definition same_data (a b : Level) : Prop :=
  Orientation a = Orientation b
  /\ RenderOrder a = RenderOrder b
  /\ width a = width b
  /\ height a = height b
  /\ Offset a = Offset b
  /\ TileWidth a = TileWidth b
  /\ TileHeight a = TileHeight b
  /\ NextObjectId a = NextObjectId b
  /\ TileLayers a = TileLayers b
  /\ Level_Properties a = Level_Properties b.

(** The three strategy slots are set. *)
Definition resolved (lvl : Level) : Prop :=
  MapToPoint lvl <> None /\ PointToMap lvl <> None /\ MapMaxBounds lvl <> None.

(** An assignment to the tile size of a level. *)
Definition set_TileSize (lvl : Level) (tw th : Z) : Level :=
  mkLevel (Orientation lvl) (MapToPoint lvl) (PointToMap lvl)
          (MapMaxBounds lvl) (RenderOrder lvl) (width lvl) (height lvl)
          (Offset lvl) tw th (NextObjectId lvl) (TileLayers lvl)
          (Level_Properties lvl).

(** A sheet with another first global id and other properties. *)
Definition relabelled (sheet : tilesheet) (gid : Z)
    (props : list (string * Property)) : tilesheet :=
  mkTilesheet (tilesheet_Image sheet) (tilesheet_TileWidth sheet)
              (tilesheet_TileHeight sheet) gid props.

(** A computation that neither reads nor writes the level: one outcome,
    whatever the level, and the level is handed back. *)
Definition stateless {A} (c : M A) : Prop :=
  exists o : outcome A,
    forall s, c s = match o with
                    | Returned a => Returned (a, s)
                    | Panicked p => Panicked p
                    end.

(** The outcome of a loop that appends, with [acc] put in front of what it
    appended. *)
Definition prepend {A} (acc : list A) (o : outcome (list A * Level))
  : outcome (list A * Level) :=
  match o with
  | Returned (xs, s) => Returned (acc ++ xs, s)
  | Panicked p => Panicked p
  end.

(** The tiles a sheet contributes: the inner loop of [createTileset]. *)
Definition sheetTiles (sheet : tilesheet) (tileset : list tile)
  : M (list tile) :=
  let tw := F32.of_int (tilesheet_TileWidth sheet) in
  let th := F32.of_int (tilesheet_TileHeight sheet) in
  let setWidth :=
    F32.div (TextureResource_Width (tilesheet_Image sheet)) tw in
  let setHeight :=
    F32.div (TextureResource_Height (tilesheet_Image sheet)) th in
  let totalTiles := F32.to_int (F32.mul setWidth setHeight) in
  for_upto totalTiles
    (fun i tileset =>
       t <- sheetTile sheet tw th setWidth i ;;
       ret (tileset ++ [t]))
    tileset.

(** ** Levels, sheets and layers of the examples *)

(** A level as the loader builds it: no strategy function set yet. *)
Definition newLevel (orientation : string) (tw th w h : Z) (offset : Point)
  : Level :=
  mkLevel orientation None None None "right-down" w h offset tw th 1 [] [].

(** A sprite sheet of [w] x [h] pixels cut into [tw] x [th] tiles. *)
Definition newSheet (w h tw th : Z) : tilesheet :=
  mkTilesheet (mkTextureResource 1 (F32.of_int w) (F32.of_int h)) tw th 1 [].

(** An atlas tile of [w] x [h] pixels. *)
Definition atlasTile (w h : Z) : tile :=
  mkTile Point_zero
    (Some (mkTexture 1 (F32.of_int w) (F32.of_int h)
             (mkAABB Point_zero (mkPoint F32.one F32.one))))
    [].

Definition newLayer (name : string) (w h : Z) (mapping : list N) : layer :=
  mkLayer name w h mapping [].

(** The level of the specification's bounds example: 32 x 32 tiles,
    10 x 5 cells. *)
Definition level_10x5 : Level :=
  newLevel "orthogonal" 32 32 10 5 Point_zero.

(** Levels of 4 x 4 cells and 32 x 32 tiles, one per orientation string. *)
Definition level_iso : Level := newLevel "isometric" 32 32 4 4 Point_zero.
Definition level_stag : Level := newLevel "staggered" 32 32 4 4 Point_zero.
Definition level_hex : Level := newLevel "hexagonal" 32 32 4 4 Point_zero.

(** The specification's bottom-alignment example: one cell, an atlas tile
    48 pixels high on a grid of 32-pixel tiles, orthogonal, no offset. *)
Definition level_1x1 : Level := newLevel "orthogonal" 32 32 1 1 Point_zero.
Definition tall_tileset : list tile := [atlasTile 32 48].
Definition one_cell_layers : list layer := [newLayer "props" 1 1 [1%N]].

Definition one_cell_tile : tile :=
  mkTile (mkPoint (F32.of_int 0) (F32.of_int (-16)))
         (Image (atlasTile 32 48)) [].

Definition one_cell_out : list TileLayer :=
  [mkTileLayer "props" 1 1 [one_cell_tile] []].

(** A level of 2 x 2 cells and a layer that declares 7 x 9: two cells
    carry tiles, two are blank. *)
Definition level_2x2 : Level := newLevel "orthogonal" 32 32 2 2 Point_zero.
Definition two_tiles : list tile := [atlasTile 32 32; atlasTile 32 48].
Definition ground : layer := newLayer "ground" 7 9 [1%N; 0%N; 0%N; 2%N].

Definition ground_tiles : list tile :=
  [ mkTile (cell 0 0) (Image (atlasTile 32 32)) [];
    tile_zero;
    tile_zero;
    mkTile (cell 32 16) (Image (atlasTile 32 48)) [] ].

Definition ground_out : list TileLayer :=
  [mkTileLayer "ground" 7 9 ground_tiles []].

(** The specification's sheet, and one narrower than a tile. *)
Definition sheet_128x64 : tilesheet := newSheet 128 64 32 32.
Definition sheet_16x128 : tilesheet := newSheet 16 128 32 32.

(** A layer with nothing but blank cells, and one whose mapping stops
    after two of the four cells of [level_2x2]. *)
Definition blank_layer : layer := newLayer "empty" 2 2 [0%N; 0%N; 0%N; 0%N].
Definition short_layer : layer := newLayer "short" 2 2 [1%N; 0%N].

(** [level_2x2] with its strategy resolved, as [setupOrientation] leaves
    it. *)
Definition level_2x2_resolved : Level :=
  set_strategy level_2x2
    (orthogonal_MapToPoint (F32.of_int 32) (F32.of_int 32))
    (orthogonal_PointToMap (F32.of_int 32) (F32.of_int 32))
    OrthogonalBounds.

(** A layer of one cell whose entry, 5, is beyond a tileset of one tile. *)
Definition stray_layer : layer := newLayer "ground" 1 1 [5%N].
Definition one_tile : list tile := [atlasTile 32 32].

(** ** Running computations *)

Lemma bind_Returned {A B} (c : M A) (k : A -> M B) s b s' :
  bind c k s = Returned (b, s') ->
  exists a s1, c s = Returned (a, s1) /\ k a s1 = Returned (b, s').
Proof.
  unfold bind. destruct (c s) as [[a s1] | p]; [ | discriminate ].
  intros H. exists a, s1. split; [ reflexivity | exact H ].
Qed.

Lemma bind_run {A B} (c : M A) (k : A -> M B) s a s1 :
  c s = Returned (a, s1) -> bind c k s = k a s1.
Proof. unfold bind. intros ->. reflexivity. Qed.

(** ** The orientation strategies *)

(** [setupOrientation] either installs the three closures or reports the
    orientation and leaves the level as it is. It never panics. *)
Lemma setupOrientation_cases (lvl : Level) :
  (exists m2p p2m b,
      setupOrientation lvl = Returned (None, set_strategy lvl m2p p2m b))
  \/ setupOrientation lvl
     = Returned (Some (UnsupportedOrientation (Orientation lvl)), lvl).
Proof.
  unfold setupOrientation, bind, get, put, ret.
  destruct (String.eqb (Orientation lvl) "orthogonal");
    [ left; eauto | ].
  destruct (String.eqb (Orientation lvl) "isometric");
    [ left; eauto | ].
  destruct (String.eqb (Orientation lvl) "staggered");
    [ left; eauto | ].
  right. reflexivity.
Qed.

Lemma setupOrientation_unsupported (lvl : Level) :
  ~ supported (Orientation lvl) ->
  setupOrientation lvl
  = Returned (Some (UnsupportedOrientation (Orientation lvl)), lvl).
Proof.
  intros Hns. unfold setupOrientation, bind, get, put, ret.
  destruct (String.eqb_spec (Orientation lvl) "orthogonal") as [E | _];
    [ exfalso; apply Hns; left; exact E | ].
  destruct (String.eqb_spec (Orientation lvl) "isometric") as [E | _];
    [ exfalso; apply Hns; right; left; exact E | ].
  destruct (String.eqb_spec (Orientation lvl) "staggered") as [E | _];
    [ exfalso; apply Hns; right; right; exact E | ].
  reflexivity.
Qed.

Lemma setupOrientation_supported (lvl : Level) :
  supported (Orientation lvl) ->
  exists m2p p2m b,
    setupOrientation lvl = Returned (None, set_strategy lvl m2p p2m b).
Proof.
  intros Hs. unfold setupOrientation, bind, get, put, ret.
  destruct Hs as [E | [E | E]]; rewrite E; simpl; eauto.
Qed.

Lemma MapToPosition_set (lvl : Level) (f : Point -> Point) (c : Point) :
  MapToPoint lvl = Some f ->
  MapToPosition c lvl = Returned (inl (placed f lvl c), lvl).
Proof.
  intros Hf. unfold MapToPosition, bind, get, ret, call. cbn beta.
  rewrite Hf. cbn beta iota. rewrite Hf. reflexivity.
Qed.

Lemma MapToPosition_unset (lvl : Level) (c : Point) :
  MapToPoint lvl = None ->
  (exists m2p p2m b,
      setupOrientation lvl = Returned (None, set_strategy lvl m2p p2m b)
      /\ MapToPosition c lvl
         = Returned (inl (placed m2p lvl c), set_strategy lvl m2p p2m b))
  \/ (setupOrientation lvl
      = Returned (Some (UnsupportedOrientation (Orientation lvl)), lvl)
      /\ MapToPosition c lvl
         = Returned (inr (UnsupportedOrientation (Orientation lvl)), lvl)).
Proof.
  intros Hf. unfold MapToPosition.
  rewrite (bind_run get _ lvl lvl lvl eq_refl). rewrite Hf.
  destruct (setupOrientation_cases lvl) as [(m2p & p2m & b & E) | E].
  - left. exists m2p, p2m, b. split; [ exact E | ].
    rewrite (bind_run _ _ _ _ _ E). reflexivity.
  - right. split; [ exact E | ].
    rewrite (bind_run _ _ _ _ _ E). reflexivity.
Qed.

(** A successful [MapToPosition] leaves the closure it applied in the level,
    and its point is that closure's point moved by the offset. *)
Lemma MapToPosition_resolved (lvl lvl' : Level) (c pt : Point) :
  MapToPosition c lvl = Returned (inl pt, lvl') ->
  exists f, MapToPoint lvl' = Some f /\ pt = placed f lvl c
            /\ Offset lvl' = Offset lvl /\ TileHeight lvl' = TileHeight lvl.
Proof.
  intros H. destruct (MapToPoint lvl) as [f | ] eqn:Hf.
  - rewrite (MapToPosition_set lvl f c Hf) in H. inversion H; subst.
    exists f. repeat split; [ exact Hf ].
  - destruct (MapToPosition_unset lvl c Hf)
      as [(m2p & p2m & b & _ & E) | [_ E]];
      rewrite E in H; inversion H; subst.
    exists m2p. repeat split.
Qed.

(** C1. For a level whose orientation is "orthogonal", [setupOrientation]
    succeeds and the three functions it installs are: [MapToPoint (x, y)
    = (x * tw, y * th)], [PointToMap (x, y) = (x / tw, y / th)], and
    [MapMaxBounds () = (TileWidth * width, TileHeight * height)], the
    products taken on [int] and converted to [float32]; [tw], [th] are the
    tile width and height as [float32]. Positive tile sizes are not needed
    for this to hold. *)
Theorem orthogonal_strategy (lvl : Level) :
  Orientation lvl = "orthogonal"%string ->
  let tw := F32.of_int (TileWidth lvl) in
  let th := F32.of_int (TileHeight lvl) in
  exists lvl' mapToPoint pointToMap maxBounds,
    setupOrientation lvl = Returned (None, lvl')
    /\ MapToPoint lvl' = Some mapToPoint
    /\ PointToMap lvl' = Some pointToMap
    /\ MapMaxBounds lvl' = Some maxBounds
    /\ (forall x y,
           mapToPoint (mkPoint x y) = mkPoint (F32.mul x tw) (F32.mul y th))
    /\ (forall x y,
           pointToMap (mkPoint x y) = mkPoint (F32.div x tw) (F32.div y th))
    /\ call_MapMaxBounds maxBounds lvl'
       = mkPoint (F32.of_int (GoInt.mul (TileWidth lvl) (width lvl)))
                 (F32.of_int (GoInt.mul (TileHeight lvl) (height lvl))).
Proof.
  intros Ho tw th.
  exists (set_strategy lvl (orthogonal_MapToPoint tw th)
            (orthogonal_PointToMap tw th) OrthogonalBounds),
    (orthogonal_MapToPoint tw th), (orthogonal_PointToMap tw th),
    OrthogonalBounds.
  unfold setupOrientation, bind, get, put, ret. rewrite Ho. simpl.
  repeat split.
Qed.

Lemma orthogonal_strategy_witness :
  exists lvl' mapToPoint pointToMap maxBounds,
    setupOrientation level_10x5 = Returned (None, lvl')
    /\ MapToPoint lvl' = Some mapToPoint
    /\ PointToMap lvl' = Some pointToMap
    /\ MapMaxBounds lvl' = Some maxBounds
    /\ (forall x y,
           mapToPoint (mkPoint x y)
           = mkPoint (F32.mul x (F32.of_int 32)) (F32.mul y (F32.of_int 32)))
    /\ (forall x y,
           pointToMap (mkPoint x y)
           = mkPoint (F32.div x (F32.of_int 32)) (F32.div y (F32.of_int 32)))
    /\ call_MapMaxBounds maxBounds lvl'
       = mkPoint (F32.of_int 320) (F32.of_int 160).
Proof. exact (orthogonal_strategy level_10x5 eq_refl). Defined.

(** The same bounds read as numbers: 320 and 160. *)
Example orthogonal_bounds_320_160 :
  F32.to_Q (F32.of_int 320) = Some (320 # 1)%Q
  /\ F32.to_Q (F32.of_int 160) = Some (160 # 1)%Q.
Proof. split; vm_compute; reflexivity. Qed.

(** C2. For a level whose orientation is "isometric", the installed
    [MapToPoint] computes [x' = (x - y) * hw] first and then
    [y' = (x' + y) * hh] from the new [x'], where [hw], [hh] are the
    [int] halves of the tile width and height as [float32]. *)
Theorem isometric_mapToPoint_uses_new_x (lvl : Level) :
  Orientation lvl = "isometric"%string ->
  let hw := F32.of_int (GoInt.quot (TileWidth lvl) 2) in
  let hh := F32.of_int (GoInt.quot (TileHeight lvl) 2) in
  exists lvl' mapToPoint,
    setupOrientation lvl = Returned (None, lvl')
    /\ MapToPoint lvl' = Some mapToPoint
    /\ forall x y,
         let x' := F32.mul (F32.sub x y) hw in
         let y' := F32.mul (F32.add x' y) hh in
         mapToPoint (mkPoint x y) = mkPoint x' y'.
Proof.
  intros Ho hw hh.
  exists (set_strategy lvl (isometric_MapToPoint hw hh)
            (isometric_PointToMap (F32.of_int (TileWidth lvl))
               (F32.of_int (TileHeight lvl))) IsometricBounds),
    (isometric_MapToPoint hw hh).
  unfold setupOrientation, bind, get, put, ret. rewrite Ho. simpl.
  repeat split.
Qed.

Lemma isometric_mapToPoint_uses_new_x_witness :
  exists lvl' mapToPoint,
    setupOrientation level_iso = Returned (None, lvl')
    /\ MapToPoint lvl' = Some mapToPoint
    /\ forall x y,
         let x' := F32.mul (F32.sub x y) (F32.of_int 16) in
         let y' := F32.mul (F32.add x' y) (F32.of_int 16) in
         mapToPoint (mkPoint x y) = mkPoint x' y'.
Proof. exact (isometric_mapToPoint_uses_new_x level_iso eq_refl). Defined.

Lemma PositionToMap_set (lvl : Level) (g : Point -> Point) (p : Point) :
  PointToMap lvl = Some g ->
  PositionToMap p lvl = Returned (inl (unplaced g lvl p), lvl).
Proof.
  intros Hg. unfold PositionToMap, bind, get, ret, call. cbn beta.
  rewrite Hg. cbn beta iota. rewrite Hg. reflexivity.
Qed.

Lemma PositionToMap_unset (lvl : Level) (p : Point) :
  PointToMap lvl = None ->
  (exists m2p p2m b,
      setupOrientation lvl = Returned (None, set_strategy lvl m2p p2m b)
      /\ PositionToMap p lvl
         = Returned (inl (unplaced p2m lvl p), set_strategy lvl m2p p2m b))
  \/ (setupOrientation lvl
      = Returned (Some (UnsupportedOrientation (Orientation lvl)), lvl)
      /\ PositionToMap p lvl
         = Returned (inr (UnsupportedOrientation (Orientation lvl)), lvl)).
Proof.
  intros Hg. unfold PositionToMap.
  rewrite (bind_run get _ lvl lvl lvl eq_refl). rewrite Hg.
  destruct (setupOrientation_cases lvl) as [(m2p & p2m & b & E) | E].
  - left. exists m2p, p2m, b. split; [ exact E | ].
    rewrite (bind_run _ _ _ _ _ E). reflexivity.
  - right. split; [ exact E | ].
    rewrite (bind_run _ _ _ _ _ E). reflexivity.
Qed.

(** With a supported orientation both conversions return a point, whatever
    the slots hold. *)
Lemma MapToPosition_supported (lvl : Level) (c : Point) :
  supported (Orientation lvl) ->
  exists pt lvl', MapToPosition c lvl = Returned (inl pt, lvl').
Proof.
  intros Hs. destruct (MapToPoint lvl) as [f | ] eqn:Hf.
  - rewrite (MapToPosition_set lvl f c Hf). eauto.
  - destruct (MapToPosition_unset lvl c Hf)
      as [(m2p & p2m & b & _ & E) | [E _]].
    + rewrite E. eauto.
    + destruct (setupOrientation_supported lvl Hs) as (m2p & p2m & b & E').
      rewrite E' in E. discriminate E.
Qed.

Lemma PositionToMap_supported (lvl : Level) (p : Point) :
  supported (Orientation lvl) ->
  exists mp lvl', PositionToMap p lvl = Returned (inl mp, lvl').
Proof.
  intros Hs. destruct (PointToMap lvl) as [g | ] eqn:Hg.
  - rewrite (PositionToMap_set lvl g p Hg). eauto.
  - destruct (PositionToMap_unset lvl p Hg)
      as [(m2p & p2m & b & _ & E) | [E _]].
    + rewrite E. eauto.
    + destruct (setupOrientation_supported lvl Hs) as (m2p & p2m & b & E').
      rewrite E' in E. discriminate E.
Qed.

Lemma supported_dec (o : string) : supported o \/ ~ supported o.
Proof.
  unfold supported.
  destruct (String.eqb_spec o "orthogonal") as [E1 | N1]; [ tauto | ].
  destruct (String.eqb_spec o "isometric") as [E2 | N2]; [ tauto | ].
  destruct (String.eqb_spec o "staggered") as [E3 | N3]; tauto.
Qed.

(** When [setupOrientation] returns no error the orientation is a
    supported one, and it is still the orientation of the level. *)
Lemma setupOrientation_ok (lvl lvl' : Level) :
  setupOrientation lvl = Returned (None, lvl') ->
  supported (Orientation lvl) /\ Orientation lvl' = Orientation lvl.
Proof.
  intros H. destruct (supported_dec (Orientation lvl)) as [Hs | Hns].
  - split; [ exact Hs | ].
    destruct (setupOrientation_supported lvl Hs) as (m2p & p2m & b & E).
    rewrite E in H. inversion H. reflexivity.
  - rewrite (setupOrientation_unsupported lvl Hns) in H. discriminate H.
Qed.

(** Under the invariant, a level with an unsupported orientation has its
    three slots unset. *)
Lemma memoized_unsupported_unset (lvl : Level) :
  memoized lvl -> ~ supported (Orientation lvl) ->
  MapToPoint lvl = None /\ PointToMap lvl = None /\ MapMaxBounds lvl = None.
Proof.
  intros [Hunset | (lvl0 & _ & _ & _ & Hsetup)] Hns; [ exact Hunset | ].
  destruct (setupOrientation_ok _ _ Hsetup) as (Hs & Ho).
  exfalso. apply Hns. rewrite Ho. exact Hs.
Qed.

(** The invariant holds of a level whose slots are unset and is kept by
    both conversions. *)
Lemma memoized_after_setup (lvl lvl' : Level) :
  memoized lvl ->
  setupOrientation lvl = Returned (None, lvl') ->
  MapToPoint lvl = None \/ PointToMap lvl = None ->
  memoized lvl'.
Proof.
  intros [Hunset | (lvl0 & _ & _ & _ & Hsetup0)] Hsetup Hnone.
  - right. exists lvl. tauto.
  - exfalso.
    destruct (setupOrientation_cases lvl0) as [(m2p & p2m & b & E) | E];
      rewrite E in Hsetup0; inversion Hsetup0; subst lvl.
    destruct Hnone as [H | H]; discriminate H.
Qed.

Lemma memoized_MapToPosition (lvl lvl' : Level) (c : Point) r :
  memoized lvl -> MapToPosition c lvl = Returned (r, lvl') -> memoized lvl'.
Proof.
  intros Hinv Hrun. destruct (MapToPoint lvl) as [f | ] eqn:Hf.
  - rewrite (MapToPosition_set lvl f c Hf) in Hrun.
    inversion Hrun; subst. exact Hinv.
  - destruct (MapToPosition_unset lvl c Hf)
      as [(m2p & p2m & b & Hsetup & E) | [_ E]];
      rewrite E in Hrun; inversion Hrun; subst; [ | exact Hinv ].
    apply (memoized_after_setup lvl _ Hinv Hsetup). left. exact Hf.
Qed.

Lemma memoized_PositionToMap (lvl lvl' : Level) (p : Point) r :
  memoized lvl -> PositionToMap p lvl = Returned (r, lvl') -> memoized lvl'.
Proof.
  intros Hinv Hrun. destruct (PointToMap lvl) as [g | ] eqn:Hg.
  - rewrite (PositionToMap_set lvl g p Hg) in Hrun.
    inversion Hrun; subst. exact Hinv.
  - destruct (PositionToMap_unset lvl p Hg)
      as [(m2p & p2m & b & Hsetup & E) | [_ E]];
      rewrite E in Hrun; inversion Hrun; subst; [ | exact Hinv ].
    apply (memoized_after_setup lvl _ Hinv Hsetup). right. exact Hg.
Qed.

(** C9. For a level whose orientation is none of the three supported
    strings, [MapToPosition] and [PositionToMap] return the
    unsupported-orientation error and leave the level exactly as it was;
    its three function slots are unset before and after the call. Once the
    orientation of that level is replaced by a supported one, both calls
    return a point. The level is any level that satisfies the invariant of
    the slots. *)
Theorem unsupported_orientation_fails (lvl : Level) (c : Point) :
  memoized lvl ->
  ~ supported (Orientation lvl) ->
  (exists lvl',
      MapToPosition c lvl
      = Returned (inr (UnsupportedOrientation (Orientation lvl)), lvl')
      /\ lvl' = lvl
      /\ MapToPoint lvl' = None /\ PointToMap lvl' = None
      /\ MapMaxBounds lvl' = None)
  /\ (exists lvl',
         PositionToMap c lvl
         = Returned (inr (UnsupportedOrientation (Orientation lvl)), lvl')
         /\ lvl' = lvl
         /\ MapToPoint lvl' = None /\ PointToMap lvl' = None
         /\ MapMaxBounds lvl' = None)
  /\ (forall o, supported o ->
        (exists pt lvl'',
            MapToPosition c (set_Orientation lvl o) = Returned (inl pt, lvl''))
        /\ (exists mp lvl'',
               PositionToMap c (set_Orientation lvl o)
               = Returned (inl mp, lvl''))).
Proof.
  intros Hinv Hns.
  destruct (memoized_unsupported_unset lvl Hinv Hns) as (Hm & Hp & Hb).
  split; [ | split ].
  - exists lvl. repeat split; try assumption.
    destruct (MapToPosition_unset lvl c Hm)
      as [(m2p & p2m & b & E & _) | [_ E]]; [ | exact E ].
    rewrite (setupOrientation_unsupported lvl Hns) in E. discriminate E.
  - exists lvl. repeat split; try assumption.
    destruct (PositionToMap_unset lvl c Hp)
      as [(m2p & p2m & b & E & _) | [_ E]]; [ | exact E ].
    rewrite (setupOrientation_unsupported lvl Hns) in E. discriminate E.
  - intros o Hs. split.
    + apply MapToPosition_supported. exact Hs.
    + apply PositionToMap_supported. exact Hs.
Qed.

Lemma hexagonal_unsupported : ~ supported (Orientation level_hex).
Proof. intros [E | [E | E]]; discriminate E. Defined.

Lemma hexagonal_memoized : memoized level_hex.
Proof. left. repeat split. Defined.

Lemma unsupported_orientation_fails_witness :
  (exists lvl',
      MapToPosition (cell 1 2) level_hex
      = Returned (inr (UnsupportedOrientation "hexagonal"), lvl')
      /\ lvl' = level_hex
      /\ MapToPoint lvl' = None /\ PointToMap lvl' = None
      /\ MapMaxBounds lvl' = None)
  /\ (exists lvl',
         PositionToMap (cell 1 2) level_hex
         = Returned (inr (UnsupportedOrientation "hexagonal"), lvl')
         /\ lvl' = level_hex
         /\ MapToPoint lvl' = None /\ PointToMap lvl' = None
         /\ MapMaxBounds lvl' = None)
  /\ (forall o, supported o ->
        (exists pt lvl'',
            MapToPosition (cell 1 2) (set_Orientation level_hex o)
            = Returned (inl pt, lvl''))
        /\ (exists mp lvl'',
               PositionToMap (cell 1 2) (set_Orientation level_hex o)
               = Returned (inl mp, lvl''))).
Proof.
  exact (unsupported_orientation_fails level_hex (cell 1 2)
           hexagonal_memoized hexagonal_unsupported).
Defined.

(** ** Staggered rows *)

(** On rows whose integer part is not negative the stagger follows the
    parity of the row. *)
Lemma staggered_MapToPoint_nonneg_row (tw hw hh x y : f32) :
  0 <= F32.to_int y ->
  staggered_MapToPoint tw hw hh (mkPoint x y)
  = mkPoint (F32.add (F32.mul x tw)
               (if Z.odd (F32.to_int y) then hw else F32.of_int 0))
            (F32.mul y hh).
Proof.
  intros Hy. unfold staggered_MapToPoint, set_X, set_Y, GoInt.rem. simpl.
  replace (Z.rem (F32.to_int y) 2 =? 1) with (Z.odd (F32.to_int y));
    [ reflexivity | ].
  rewrite Z.rem_mod_nonneg by lia.
  rewrite Zmod_odd. destruct (Z.odd (F32.to_int y)); reflexivity.
Qed.

(** C3, at the cell (0, -1) of a staggered level with 32 x 32 tiles. Row -1
    is odd, so the claim places the cell at x = 0 * 32 + 16 = 16; the code
    places it at x = 0: [int(m.Y) % 2] is -1 on a negative odd row, never
    1. Row 1 of the same level is shifted to x = 16. *)
Theorem staggered_negative_odd_row_not_shifted :
  Z.odd (-1) = true
  /\ GoInt.rem (F32.to_int (F32.of_int (-1))) 2 = -1
  /\ (exists pt,
         result (MapToPosition (cell 0 (-1)) level_stag) = Returned (inl pt)
         /\ F32.to_Q (X pt) = Some (0 # 1)%Q
         /\ F32.to_Q (Y pt) = Some (-16 # 1)%Q)
  /\ (exists pt,
         result (MapToPosition (cell 0 1) level_stag) = Returned (inl pt)
         /\ F32.to_Q (X pt) = Some (16 # 1)%Q
         /\ F32.to_Q (Y pt) = Some (16 # 1)%Q).
Proof.
  split; [ reflexivity | ]. split; [ vm_compute; reflexivity | ].
  split; eexists; (split; [ vm_compute; reflexivity | ]);
    split; vm_compute; reflexivity.
Qed.

(** ** Round trips *)

(** C4, at the cell (1, 0) of an isometric level with 32 x 32 tiles and no
    offset: the cell is placed at (16, 256) and that point is mapped back
    to (8.5, 7.734375), not to (1, 0). *)
Theorem isometric_round_trip_fails :
  exists pt back,
    result (MapToPosition (cell 1 0) level_iso) = Returned (inl pt)
    /\ F32.to_Q (X pt) = Some (16 # 1)%Q
    /\ F32.to_Q (Y pt) = Some (256 # 1)%Q
    /\ result ((_ <- MapToPosition (cell 1 0) ;; PositionToMap pt) level_iso)
       = Returned (inl back)
    /\ F32.to_Q (X back) = Some (17 # 2)%Q
    /\ F32.to_Q (Y back) = Some (495 # 64)%Q.
Proof.
  do 2 eexists.
  split; [ vm_compute; reflexivity | ].
  split; [ vm_compute; reflexivity | ].
  split; [ vm_compute; reflexivity | ].
  split; [ vm_compute; reflexivity | ].
  split; vm_compute; reflexivity.
Qed.

(** On an orthogonal level the round trip is exact on every cell of a
    32 x 32 grid, for 32 x 32 tiles and for 24 x 40 tiles with an offset;
    on the isometric level it is exact on the cell (0, 0) only. *)
Example orthogonal_round_trip_grid :
  forallb (fun c => round_trip_exact
                      (newLevel "orthogonal" 32 32 32 32 Point_zero)
                      (fst c) (snd c)) (cells 32 32) = true
  /\ forallb (fun c => round_trip_exact
                         (newLevel "orthogonal" 24 40 32 32 (cell 100 (-60)))
                         (fst c) (snd c)) (cells 32 32) = true
  /\ filter (fun c => round_trip_exact level_iso (fst c) (snd c)) (cells 4 4)
     = [(0, 0)].
Proof. repeat split; vm_compute; reflexivity. Qed.

(** ** Lists cut in rows *)

Lemma lookup_nth_error {A} (xs : list A) (n : nat) :
  lookup xs (Z.of_nat n) = nth_error xs n.
Proof.
  unfold lookup. rewrite Nat2Z.id.
  destruct (Z.ltb_spec (Z.of_nat n) (Z.of_nat (List.length xs))) as [Hlt | Hge].
  - replace (0 <=? Z.of_nat n) with true by (symmetry; apply Z.leb_le; lia).
    reflexivity.
  - rewrite andb_false_r. symmetry. apply nth_error_None. lia.
Qed.

Lemma lookup_Some_range {A} (xs : list A) (i : Z) (a : A) :
  lookup xs i = Some a -> 0 <= i < Z.of_nat (List.length xs).
Proof.
  unfold lookup.
  destruct (Z.leb_spec 0 i) as [Hlo | Hlo];
    destruct (Z.ltb_spec i (Z.of_nat (List.length xs))) as [Hhi | Hhi];
    simpl; intros E; try discriminate E. lia.
Qed.

Lemma lookup_None_range {A} (xs : list A) (i : Z) :
  lookup xs i = None -> i < 0 \/ Z.of_nat (List.length xs) <= i.
Proof.
  unfold lookup.
  destruct (Z.leb_spec 0 i) as [Hlo | Hlo];
    destruct (Z.ltb_spec i (Z.of_nat (List.length xs))) as [Hhi | Hhi];
    simpl; intros E; try lia.
  apply nth_error_None in E. lia.
Qed.

(** In the concatenation of rows of one length [w], element [x] of row [i]
    is at index [i * w + x]. *)
Lemma concat_rows {A} (w : nat) (rows : list (list A)) :
  (forall k row, nth_error rows k = Some row -> List.length row = w) ->
  List.length (concat rows) = (List.length rows * w)%nat
  /\ forall i x row, nth_error rows i = Some row -> (x < w)%nat ->
       nth_error (concat rows) (i * w + x) = nth_error row x.
Proof.
  induction rows as [ | r rows IH]; intros Hw.
  - split; [ reflexivity | ]. intros [ | i] x row H; discriminate H.
  - assert (Hr : List.length r = w) by (apply (Hw O); reflexivity).
    destruct IH as [IHlen IHnth].
    { intros k row Hk. apply (Hw (S k)). exact Hk. }
    split.
    + simpl. rewrite length_app, IHlen, Hr. reflexivity.
    + intros [ | i] x row Hrow Hx; simpl in Hrow |- *.
      * inversion Hrow; subst row. apply nth_error_app1. lia.
      * rewrite nth_error_app2 by lia. rewrite <- (IHnth i x row Hrow Hx).
        f_equal. lia.
Qed.

(** ** Loops that append *)

Section AppendingLoops.

Context {A : Type}.

(** [Inv] holds of the level throughout; each turn [j] of the loop
    appends to the slice a chunk that satisfies [P j]. *)
Variable Inv : Level -> Prop.
Variable P : Z -> list A -> Prop.
Variable body : Z -> list A -> M (list A).

Hypothesis body_appends :
  forall j acc s acc' s',
    Inv s -> body j acc s = Returned (acc', s') ->
    Inv s' /\ exists chunk, acc' = acc ++ chunk /\ P j chunk.

Lemma for_loop_chunks (count : nat) :
  forall i acc s out s',
    Inv s -> for_loop count i body acc s = Returned (out, s') ->
    Inv s'
    /\ exists chunks,
         out = acc ++ concat chunks
         /\ List.length chunks = count
         /\ forall k chunk, nth_error chunks k = Some chunk ->
              P (i + Z.of_nat k) chunk.
Proof.
  induction count as [ | count IH]; intros i acc s out s' Hinv Hrun.
  - simpl in Hrun. unfold ret in Hrun. inversion Hrun; subst.
    split; [ exact Hinv | ]. exists []. simpl. rewrite app_nil_r.
    repeat split. intros [ | k] chunk H; discriminate H.
  - simpl in Hrun. apply bind_Returned in Hrun.
    destruct Hrun as (acc1 & s1 & Hbody & Hrest).
    destruct (body_appends _ _ _ _ _ Hinv Hbody)
      as (Hinv1 & chunk & -> & Hchunk).
    destruct (IH _ _ _ _ _ Hinv1 Hrest)
      as (Hinv' & chunks & -> & Hlen & Hall).
    split; [ exact Hinv' | ]. exists (chunk :: chunks). simpl.
    rewrite app_assoc. repeat split.
    + rewrite Hlen. reflexivity.
    + intros [ | k] c Hc; simpl in Hc.
      * inversion Hc; subst c. rewrite Z.add_0_r. exact Hchunk.
      * replace (i + Z.of_nat (S k)) with (i + 1 + Z.of_nat k) by lia.
        apply Hall. exact Hc.
Qed.

End AppendingLoops.

Section RangeLoops.

Context {A B : Type}.

Variable Inv : Level -> Prop.
Variable R : B -> A -> Prop.
Variable body : B -> list A -> M (list A).

Hypothesis body_appends_one :
  forall x acc s acc' s',
    Inv s -> body x acc s = Returned (acc', s') ->
    Inv s' /\ exists y, acc' = acc ++ [y] /\ R x y.

Lemma for_range_appends (xs : list B) :
  forall acc s out s',
    Inv s -> for_range xs body acc s = Returned (out, s') ->
    Inv s' /\ exists ys, out = acc ++ ys /\ Forall2 R xs ys.
Proof.
  induction xs as [ | x xs IH]; intros acc s out s' Hinv Hrun.
  - simpl in Hrun. unfold ret in Hrun. inversion Hrun; subst.
    split; [ exact Hinv | ]. exists []. rewrite app_nil_r.
    split; [ reflexivity | constructor ].
  - simpl in Hrun. apply bind_Returned in Hrun.
    destruct Hrun as (acc1 & s1 & Hbody & Hrest).
    destruct (body_appends_one _ _ _ _ _ Hinv Hbody)
      as (Hinv1 & y & -> & Hy).
    destruct (IH _ _ _ _ Hinv1 Hrest) as (Hinv' & ys & -> & Hys).
    split; [ exact Hinv' | ]. exists (y :: ys).
    rewrite <- app_assoc. split; [ reflexivity | ].
    constructor; assumption.
Qed.

End RangeLoops.

Lemma Forall2_nth_error {A B} (R : A -> B -> Prop) (xs : list A) (ys : list B) :
  Forall2 R xs ys ->
  List.length xs = List.length ys
  /\ forall k x y, nth_error xs k = Some x -> nth_error ys k = Some y -> R x y.
Proof.
  intros HF. induction HF as [ | x y xs ys Hxy _ [IHlen IHnth]].
  - split; [ reflexivity | ]. intros [ | k] x y Hk; discriminate Hk.
  - split; [ simpl; rewrite IHlen; reflexivity | ].
    intros [ | k] x' y' Hx Hy; simpl in Hx, Hy.
    + inversion Hx; inversion Hy; subst. exact Hxy.
    + eapply IHnth; eassumption.
Qed.

(** ** The level during layer assembly *)

Lemma settled_refl (lvl0 : Level) : settled lvl0 lvl0.
Proof. left. reflexivity. Qed.

Lemma settled_strategy (lvl0 s : Level) :
  settled lvl0 s ->
  s = lvl0 \/ (MapToPoint lvl0 = None /\ exists m2p p2m b,
                  setupOrientation lvl0 = Returned (None, s)
                  /\ s = set_strategy lvl0 m2p p2m b).
Proof.
  intros [E | [Hm E]]; [ left; exact E | right ].
  split; [ exact Hm | ].
  destruct (setupOrientation_cases lvl0) as [(m2p & p2m & b & E') | E'].
  - exists m2p, p2m, b. split; [ exact E | ]. rewrite E' in E.
    inversion E. reflexivity.
  - rewrite E' in E. discriminate E.
Qed.

Lemma settled_fields (lvl0 s : Level) :
  settled lvl0 s ->
  width s = width lvl0 /\ height s = height lvl0
  /\ TileHeight s = TileHeight lvl0 /\ Offset s = Offset lvl0.
Proof.
  intros H. destruct (settled_strategy _ _ H)
    as [-> | (_ & m2p & p2m & b & _ & ->)]; repeat split.
Qed.

(** From any level of the run, [MapToPosition] returns what it returns
    from the first one. *)
Lemma MapToPosition_settled (lvl0 s s' : Level) (c : Point) r :
  settled lvl0 s ->
  MapToPosition c s = Returned (r, s') ->
  settled lvl0 s' /\ exists s0', MapToPosition c lvl0 = Returned (r, s0').
Proof.
  intros Hs Hrun.
  destruct (settled_strategy _ _ Hs)
    as [-> | (Hm & m2p & p2m & b & Hsetup & ->)].
  - split; [ | exists s'; exact Hrun ].
    destruct (MapToPoint lvl0) as [f | ] eqn:Hf.
    + rewrite (MapToPosition_set lvl0 f c Hf) in Hrun.
      inversion Hrun; subst. apply settled_refl.
    + destruct (MapToPosition_unset lvl0 c Hf)
        as [(m2p & p2m & b & Hsetup & E) | [_ E]];
        rewrite E in Hrun; inversion Hrun; subst.
      * right. split; [ exact Hf | exact Hsetup ].
      * apply settled_refl.
  - rewrite (MapToPosition_set (set_strategy lvl0 m2p p2m b) m2p c eq_refl)
      in Hrun.
    inversion Hrun; subst. split; [ exact Hs | ].
    destruct (MapToPosition_unset lvl0 c Hm)
      as [(m2p' & p2m' & b' & Hsetup' & E) | [Hsetup' _]];
      rewrite Hsetup' in Hsetup; inversion Hsetup; subst.
    eexists. exact E.
Qed.

(** [placeTile], one case per way it can go. *)
Lemma placeTile_unfold (mapping : list N) (ts : list tile) (i x : Z)
    (s : Level) :
  placeTile mapping ts i x s =
  match lookup mapping (x + i * width s) with
  | None =>
      Panicked (IndexOutOfRange (x + i * width s)
                  (Z.of_nat (List.length mapping)))
  | Some entry =>
      if 0 <=? Z.of_N entry - 1 then
        match lookup ts (Z.of_N entry - 1) with
        | None =>
            Panicked (IndexOutOfRange (Z.of_N entry - 1)
                        (Z.of_nat (List.length ts)))
        | Some src =>
            match MapToPosition (cell x i) s with
            | Returned (inl tp, s') =>
                match Image src with
                | Some img =>
                    Returned
                      (mkTile
                         (set_Y tp
                            (F32.sub (Y tp)
                               (F32.sub (Texture_Height img)
                                  (F32.of_int (TileHeight s')))))
                         (Some img) [], s')
                | None => Panicked NilDereference
                end
            | Returned (inr _, _) => Panicked NilDereference
            | Panicked p => Panicked p
            end
        end
      else Returned (tile_zero, s)
  end.
Proof.
  unfold placeTile, index, bind, get, ret, throw, cell. cbn beta iota.
  destruct (lookup mapping (x + i * width s)) as [entry | ];
    [ | reflexivity ].
  destruct (0 <=? Z.of_N entry - 1); [ | reflexivity ].
  destruct (lookup ts (Z.of_N entry - 1)) as [src | ]; [ | reflexivity ].
  destruct (MapToPosition _ s) as [[[tp | e] s'] | p]; try reflexivity.
  simpl. destruct (Image src); reflexivity.
Qed.

(** From any level of the run, [placeTile] makes the tile it makes from
    the first one. *)
Lemma placeTile_settled (mapping : list N) (ts : list tile) (i x : Z)
    (lvl0 s s' : Level) (t : tile) :
  settled lvl0 s ->
  placeTile mapping ts i x s = Returned (t, s') ->
  settled lvl0 s'
  /\ exists s0', placeTile mapping ts i x lvl0 = Returned (t, s0').
Proof.
  intros Hs Hrun. rewrite placeTile_unfold in Hrun. rewrite placeTile_unfold.
  destruct (settled_fields _ _ Hs) as (Hw & _ & Hth & _). rewrite Hw in Hrun.
  destruct (lookup mapping (x + i * width lvl0)) as [entry | ];
    [ | discriminate Hrun ].
  destruct (0 <=? Z.of_N entry - 1).
  - destruct (lookup ts (Z.of_N entry - 1)) as [src | ];
      [ | discriminate Hrun ].
    destruct (MapToPosition (cell x i) s) as [[[tp | e] s1] | p] eqn:Hmp;
      try discriminate Hrun.
    destruct (MapToPosition_settled _ _ _ _ _ Hs Hmp) as (Hs1 & s0' & Hmp0).
    rewrite Hmp0.
    destruct (Image src) as [img | ]; [ | discriminate Hrun ].
    inversion Hrun; subst. split; [ exact Hs1 | ].
    destruct (settled_fields _ _ Hs1) as (_ & _ & Hth1 & _).
    assert (Hs0 : settled lvl0 s0').
    { apply (MapToPosition_settled lvl0 lvl0 s0' (cell x i) (inl tp));
        [ apply settled_refl | exact Hmp0 ]. }
    destruct (settled_fields _ _ Hs0) as (_ & _ & Hth0 & _).
    rewrite Hth1, Hth0. eexists. reflexivity.
  - inversion Hrun; subst. split; [ exact Hs | ]. eexists. reflexivity.
Qed.

(** ** What createLevelTiles returns *)

Lemma row_loop (lvl0 : Level) (mapping : list N) (ts : list tile) (i : Z)
    (acc : list tile) (s : Level) (out : list tile) (s' : Level) :
  settled lvl0 s ->
  for_upto (width s)
    (fun x tilemap => t <- placeTile mapping ts i x ;; ret (tilemap ++ [t]))
    acc s = Returned (out, s') ->
  settled lvl0 s'
  /\ exists row,
       out = acc ++ row
       /\ List.length row = Z.to_nat (width lvl0)
       /\ forall x, 0 <= x < width lvl0 ->
            exists t, nth_error row (Z.to_nat x) = Some t
                      /\ cell_tile lvl0 mapping ts i x t.
Proof.
  intros Hs Hrun. unfold for_upto in Hrun.
  destruct (settled_fields _ _ Hs) as (Hw & _). rewrite Hw in Hrun.
  apply (for_loop_chunks (settled lvl0)
           (fun x chunk => exists t, chunk = [t]
                                     /\ cell_tile lvl0 mapping ts i x t))
    in Hrun; [ | | exact Hs ].
  - destruct Hrun as (Hs' & chunks & -> & Hlen & Hall).
    split; [ exact Hs' | ]. exists (concat chunks).
    destruct (concat_rows 1 chunks) as (Hclen & Hcnth).
    { intros k chunk Hk. destruct (Hall k chunk Hk) as (t & -> & _).
      reflexivity. }
    split; [ reflexivity | ]. split; [ rewrite Hclen; lia | ].
    intros x Hx.
    destruct (nth_error chunks (Z.to_nat x)) as [chunk | ] eqn:Hk.
    + destruct (Hall _ _ Hk) as (t & -> & Ht).
      exists t. split.
      * specialize (Hcnth (Z.to_nat x) O [t] Hk ltac:(lia)).
        replace (Z.to_nat x * 1 + 0)%nat with (Z.to_nat x) in Hcnth by lia.
        exact Hcnth.
      * replace (0 + Z.of_nat (Z.to_nat x)) with x in Ht by lia. exact Ht.
    + apply nth_error_None in Hk. lia.
  - intros x acc0 s0 acc1 s1 Hs0 Hbody.
    apply bind_Returned in Hbody. destruct Hbody as (t & s2 & Hp & Hret).
    unfold ret in Hret. inversion Hret; subst.
    destruct (placeTile_settled _ _ _ _ _ _ _ _ Hs0 Hp) as (Hs1 & s0' & Hp0).
    split; [ exact Hs1 | ]. exists [t]. split; [ reflexivity | ].
    exists t. split; [ reflexivity | ]. exists s0'. exact Hp0.
Qed.

Lemma layer_loop (lvl0 : Level) (mapping : list N) (ts : list tile)
    (s : Level) (out : list tile) (s' : Level) :
  settled lvl0 s ->
  for_upto (height s)
    (fun i tilemap =>
       lvl <- get ;;
       for_upto (width lvl)
         (fun x tilemap =>
            t <- placeTile mapping ts i x ;; ret (tilemap ++ [t]))
         tilemap)
    [] s = Returned (out, s') ->
  settled lvl0 s'
  /\ List.length out = (Z.to_nat (height lvl0) * Z.to_nat (width lvl0))%nat
  /\ forall i x, 0 <= i < height lvl0 -> 0 <= x < width lvl0 ->
       exists t, lookup out (x + i * width lvl0) = Some t
                 /\ cell_tile lvl0 mapping ts i x t.
Proof.
  intros Hs Hrun. unfold for_upto at 1 in Hrun.
  destruct (settled_fields _ _ Hs) as (_ & Hh & _). rewrite Hh in Hrun.
  apply (for_loop_chunks (settled lvl0)
           (fun i row =>
              List.length row = Z.to_nat (width lvl0)
              /\ forall x, 0 <= x < width lvl0 ->
                   exists t, nth_error row (Z.to_nat x) = Some t
                             /\ cell_tile lvl0 mapping ts i x t))
    in Hrun; [ | | exact Hs ].
  - destruct Hrun as (Hs' & rows & -> & Hlen & Hall).
    split; [ exact Hs' | ]. simpl.
    destruct (concat_rows (Z.to_nat (width lvl0)) rows) as (Hclen & Hcnth).
    { intros k row Hk. apply (Hall k row Hk). }
    split; [ rewrite Hclen, Hlen; reflexivity | ].
    intros i x Hi Hx.
    destruct (nth_error rows (Z.to_nat i)) as [row | ] eqn:Hk.
    + destruct (Hall _ _ Hk) as (_ & Hrow).
      replace (0 + Z.of_nat (Z.to_nat i)) with i in Hrow by lia.
      destruct (Hrow x Hx) as (t & Ht & Hcell).
      exists t. split; [ | exact Hcell ].
      replace (x + i * width lvl0)
        with (Z.of_nat (Z.to_nat i * Z.to_nat (width lvl0) + Z.to_nat x)).
      * rewrite lookup_nth_error.
        rewrite (Hcnth _ (Z.to_nat x) row Hk) by lia. exact Ht.
      * rewrite Nat2Z.inj_add, Nat2Z.inj_mul, !Z2Nat.id by lia. lia.
    + apply nth_error_None in Hk. lia.
  - intros i acc0 s0 acc1 s1 Hs0 Hbody.
    apply bind_Returned in Hbody. destruct Hbody as (lvl & s2 & Hget & Hrow).
    unfold get in Hget. inversion Hget; subst.
    destruct (row_loop _ _ _ _ _ _ _ _ Hs0 Hrow)
      as (Hs1 & row & -> & Hlen & Hcells).
    split; [ exact Hs1 | ]. exists row. repeat split; assumption.
Qed.

(** A run of [createLevelTiles] that returns gives one assembled layer per
    input layer, in order, and ends in a level of the run. *)
Lemma createLevelTiles_assembled (lvl : Level) (layers : list layer)
    (ts : list tile) (out : list TileLayer) (lvl' : Level) :
  createLevelTiles layers ts lvl = Returned (out, lvl') ->
  settled lvl lvl' /\ Forall2 (assembled lvl ts) layers out.
Proof.
  intros Hrun. unfold createLevelTiles in Hrun.
  apply (for_range_appends (settled lvl) (assembled lvl ts)) in Hrun;
    [ | | apply settled_refl ].
  - destruct Hrun as (Hs & ys & -> & HF). split; assumption.
  - intros l acc s acc' s' Hs Hbody.
    apply bind_Returned in Hbody. destruct Hbody as (lvl1 & s1 & Hget & Hbody).
    unfold get in Hget. inversion Hget; subst.
    apply bind_Returned in Hbody. destruct Hbody as (tilemap & s2 & Hloop & Hret).
    unfold ret in Hret. inversion Hret; subst.
    destruct (layer_loop _ _ _ _ _ _ Hs Hloop) as (Hs' & Hlen & Hcells).
    split; [ exact Hs' | ]. eexists. split; [ reflexivity | ].
    unfold assembled. simpl. repeat split; assumption.
Qed.

(** The tile and the level [placeTile] returns for a blank cell. *)
Lemma placeTile_blank (mapping : list N) (ts : list tile) (i x : Z)
    (s : Level) :
  lookup mapping (x + i * width s) = Some 0%N ->
  placeTile mapping ts i x s = Returned (tile_zero, s).
Proof. intros H. rewrite placeTile_unfold, H. reflexivity. Qed.

(** The tile [placeTile] returns for a cell that is not blank. *)
Lemma placeTile_image (mapping : list N) (ts : list tile) (i x : Z)
    (s s' : Level) (entry : N) (t : tile) :
  lookup mapping (x + i * width s) = Some entry ->
  entry <> 0%N ->
  placeTile mapping ts i x s = Returned (t, s') ->
  exists src img tp,
    lookup ts (Z.of_N entry - 1) = Some src
    /\ Image src = Some img
    /\ MapToPosition (cell x i) s = Returned (inl tp, s')
    /\ t = mkTile
             (mkPoint (X tp)
                (F32.sub (Y tp)
                   (F32.sub (Texture_Height img)
                      (F32.of_int (TileHeight s)))))
             (Some img) [].
Proof.
  intros Hentry Hnz Hrun. rewrite placeTile_unfold, Hentry in Hrun.
  replace (0 <=? Z.of_N entry - 1) with true in Hrun
    by (symmetry; apply Z.leb_le; lia).
  destruct (lookup ts (Z.of_N entry - 1)) as [src | ];
    [ | discriminate Hrun ].
  destruct (MapToPosition (cell x i) s) as [[[tp | e] s1] | p] eqn:Hmp;
    try discriminate Hrun.
  destruct (Image src) as [img | ] eqn:Himg; [ | discriminate Hrun ].
  inversion Hrun; subst.
  destruct (MapToPosition_resolved _ _ _ _ Hmp) as (_ & _ & _ & _ & Hth).
  rewrite Hth. exists src, img, tp. repeat split. exact Himg.
Qed.

Lemma result_Returned {A} (o : outcome (A * Level)) (a : A) :
  result o = Returned a -> exists s, o = Returned (a, s).
Proof.
  destruct o as [[a' s] | p]; simpl; intros H; inversion H.
  exists s. reflexivity.
Qed.

Lemma Forall2_In_l {A B} (R : A -> B -> Prop) (xs : list A) (ys : list B)
    (x : A) :
  Forall2 R xs ys -> In x xs -> exists y, In y ys /\ R x y.
Proof.
  intros HF. induction HF as [ | x0 y0 xs ys Hxy _ IH]; intros Hin.
  - destruct Hin.
  - destruct Hin as [-> | Hin].
    + exists y0. split; [ left; reflexivity | exact Hxy ].
    + destruct (IH Hin) as (y & Hy & HR).
      exists y. split; [ right; exact Hy | exact HR ].
Qed.

(** ** Layer assembly, cell by cell *)

(** C6. In every layer [createLevelTiles] returns, the tile of a cell that
    is not blank carries the image of the atlas tile its mapping entry
    names, and its point is the point [MapToPoint] resolves for the cell,
    plus the offset of the level, minus on y the height of the atlas tile
    less the tile height of the level. [MapToPosition] returns that resolved
    point plus the offset. *)
Theorem bottom_alignment (lvl : Level) (layers : list layer)
    (ts : list tile) (out : list TileLayer) (lvl' : Level) :
  createLevelTiles layers ts lvl = Returned (out, lvl') ->
  forall k l tl,
    nth_error layers k = Some l -> nth_error out k = Some tl ->
  forall row x entry,
    0 <= row < height lvl -> 0 <= x < width lvl ->
    lookup (TileMapping l) (x + row * width lvl) = Some entry ->
    entry <> 0%N ->
    exists t atlas img mapToPoint s,
      lookup (Tiles tl) (x + row * width lvl) = Some t
      /\ lookup ts (Z.of_N entry - 1) = Some atlas
      /\ Image atlas = Some img
      /\ Image t = Some img
      /\ MapToPosition (cell x row) lvl
         = Returned (inl (placed mapToPoint lvl (cell x row)), s)
      /\ MapToPoint s = Some mapToPoint
      /\ tile_Point t
         = mkPoint
             (F32.add (X (mapToPoint (cell x row))) (X (Offset lvl)))
             (F32.sub
                (F32.add (Y (mapToPoint (cell x row))) (Y (Offset lvl)))
                (F32.sub (Texture_Height img)
                   (F32.of_int (TileHeight lvl)))).
Proof.
  intros Hrun k l tl Hl Htl row x entry Hrow Hx Hentry Hnz.
  destruct (createLevelTiles_assembled _ _ _ _ _ Hrun) as (_ & HF).
  destruct (Forall2_nth_error _ _ _ HF) as (_ & Hnth).
  destruct (Hnth k l tl Hl Htl) as (_ & _ & _ & _ & Hcells).
  destruct (Hcells row x Hrow Hx) as (t & Ht & s & Hplace).
  destruct (placeTile_image _ _ _ _ _ _ _ _ Hentry Hnz Hplace)
    as (atlas & img & tp & Hatlas & Himg & Hmp & ->).
  destruct (MapToPosition_resolved _ _ _ _ Hmp) as (f & Hf & -> & _ & _).
  exists (mkTile
            (mkPoint (X (placed f lvl (cell x row)))
               (F32.sub (Y (placed f lvl (cell x row)))
                  (F32.sub (Texture_Height img)
                     (F32.of_int (TileHeight lvl)))))
            (Some img) []), atlas, img, f, s.
  repeat split; assumption.
Qed.

Lemma one_cell_run :
  result (createLevelTiles one_cell_layers tall_tileset level_1x1)
  = Returned one_cell_out.
Proof. vm_compute. reflexivity. Qed.

Lemma bottom_alignment_witness :
  exists lvl' t atlas img mapToPoint s,
    createLevelTiles one_cell_layers tall_tileset level_1x1
    = Returned (one_cell_out, lvl')
    /\ lookup [one_cell_tile] 0 = Some t
    /\ lookup tall_tileset 0 = Some atlas
    /\ Image atlas = Some img
    /\ Image t = Some img
    /\ MapToPosition (cell 0 0) level_1x1
       = Returned (inl (placed mapToPoint level_1x1 (cell 0 0)), s)
    /\ MapToPoint s = Some mapToPoint
    /\ tile_Point t
       = mkPoint
           (F32.add (X (mapToPoint (cell 0 0))) F32.zero)
           (F32.sub (F32.add (Y (mapToPoint (cell 0 0))) F32.zero)
              (F32.sub (Texture_Height img) (F32.of_int 32)))
    /\ F32.to_Q (Texture_Height img) = Some (48 # 1)%Q
    /\ F32.to_Q (Y (tile_Point t)) = Some (-16 # 1)%Q.
Proof.
  destruct (result_Returned _ _ one_cell_run) as [lvl' Hrun].
  destruct (bottom_alignment level_1x1 one_cell_layers tall_tileset
              one_cell_out lvl' Hrun 0%nat
              (newLayer "props" 1 1 [1%N])
              (mkTileLayer "props" 1 1 [one_cell_tile] [])
              eq_refl eq_refl 0 0 1%N
              (conj (Z.le_refl 0) eq_refl) (conj (Z.le_refl 0) eq_refl)
              eq_refl (fun E => N.neq_succ_0 0 E))
    as (t & atlas & img & f & s & Ht & Hatlas & Himg & Hti & Hmp & Hf & Hpt).
  exists lvl', t, atlas, img, f, s.
  repeat (split; [ assumption | ]).
  inversion Hatlas; subst atlas. inversion Himg; subst img.
  inversion Ht; subst t.
  split; reflexivity.
Defined.

(** C7. In every layer [createLevelTiles] returns, the tile of a cell whose
    mapping entry is 0 is the zero tile: no image and the zero point. The
    step of the loop for such a cell returns that tile whatever the tileset
    is and whatever the level holds, and leaves the level as it was: no
    tileset lookup and no call of [MapToPosition] takes place. *)
Theorem blank_cells (lvl : Level) (layers : list layer)
    (ts : list tile) (out : list TileLayer) (lvl' : Level) :
  createLevelTiles layers ts lvl = Returned (out, lvl') ->
  forall k l tl,
    nth_error layers k = Some l -> nth_error out k = Some tl ->
  forall row x,
    0 <= row < height lvl -> 0 <= x < width lvl ->
    lookup (TileMapping l) (x + row * width lvl) = Some 0%N ->
    (exists t,
        lookup (Tiles tl) (x + row * width lvl) = Some t
        /\ Image t = None
        /\ tile_Point t = Point_zero)
    /\ forall ts' s,
         width s = width lvl ->
         placeTile (TileMapping l) ts' row x s = Returned (tile_zero, s).
Proof.
  intros Hrun k l tl Hl Htl row x Hrow Hx Hentry.
  destruct (createLevelTiles_assembled _ _ _ _ _ Hrun) as (_ & HF).
  destruct (Forall2_nth_error _ _ _ HF) as (_ & Hnth).
  destruct (Hnth k l tl Hl Htl) as (_ & _ & _ & _ & Hcells).
  destruct (Hcells row x Hrow Hx) as (t & Ht & s & Hplace).
  rewrite (placeTile_blank _ _ _ _ _ Hentry) in Hplace.
  inversion Hplace; subst. split.
  - exists tile_zero. repeat split. exact Ht.
  - intros ts' s' Hw. apply placeTile_blank. rewrite Hw. exact Hentry.
Qed.

(** ** When createLevelTiles returns *)

Section ReturningLoops.

Context {A : Type}.

Variable Inv : Level -> Prop.
Variable body : Z -> A -> M A.

Lemma for_loop_returns (count : nat) :
  forall i acc s,
    (forall j acc0 s0,
        i <= j < i + Z.of_nat count -> Inv s0 ->
        exists acc1 s1, body j acc0 s0 = Returned (acc1, s1) /\ Inv s1) ->
    Inv s ->
    exists out s', for_loop count i body acc s = Returned (out, s') /\ Inv s'.
Proof.
  induction count as [ | count IH]; intros i acc s Hbody Hinv.
  - exists acc, s. split; [ reflexivity | exact Hinv ].
  - destruct (Hbody i acc s ltac:(lia) Hinv) as (acc1 & s1 & E & Hinv1).
    destruct (IH (i + 1) acc1 s1) as (out & s' & E' & Hinv').
    { intros j acc0 s0 Hj. apply Hbody. lia. }
    { exact Hinv1. }
    exists out, s'. split; [ | exact Hinv' ].
    simpl. rewrite (bind_run _ _ _ _ _ E). exact E'.
Qed.

End ReturningLoops.

Lemma MapToPosition_from_settled (lvl0 s s0' : Level) (c : Point) r :
  settled lvl0 s ->
  MapToPosition c lvl0 = Returned (r, s0') ->
  exists s', MapToPosition c s = Returned (r, s') /\ settled lvl0 s'.
Proof.
  intros Hs Hrun.
  destruct (settled_strategy _ _ Hs)
    as [-> | (Hm & m2p & p2m & b & Hsetup & ->)].
  - exists s0'. split; [ exact Hrun | ].
    apply (MapToPosition_settled lvl0 lvl0 s0' c r (settled_refl lvl0) Hrun).
  - exists (set_strategy lvl0 m2p p2m b). split; [ | exact Hs ].
    rewrite (MapToPosition_set (set_strategy lvl0 m2p p2m b) m2p c eq_refl).
    destruct (MapToPosition_unset lvl0 c Hm)
      as [(m2p' & p2m' & b' & Hsetup' & E) | [Hsetup' _]];
      rewrite Hsetup' in Hsetup; inversion Hsetup; subst.
    rewrite E in Hrun. inversion Hrun; subst. reflexivity.
Qed.

Lemma placeTile_from_settled (mapping : list N) (ts : list tile) (i x : Z)
    (lvl0 s s0' : Level) (t : tile) :
  settled lvl0 s ->
  placeTile mapping ts i x lvl0 = Returned (t, s0') ->
  exists s', placeTile mapping ts i x s = Returned (t, s') /\ settled lvl0 s'.
Proof.
  intros Hs Hrun. rewrite placeTile_unfold in Hrun. rewrite placeTile_unfold.
  destruct (settled_fields _ _ Hs) as (Hw & _ & Hth & _). rewrite Hw.
  destruct (lookup mapping (x + i * width lvl0)) as [entry | ];
    [ | discriminate Hrun ].
  destruct (0 <=? Z.of_N entry - 1).
  - destruct (lookup ts (Z.of_N entry - 1)) as [src | ];
      [ | discriminate Hrun ].
    destruct (MapToPosition (cell x i) lvl0) as [[[tp | e] s1] | p] eqn:Hmp;
      try discriminate Hrun.
    destruct (MapToPosition_from_settled _ _ _ _ _ Hs Hmp) as (s' & Hmp' & Hs').
    rewrite Hmp'.
    destruct (Image src) as [img | ]; [ | discriminate Hrun ].
    inversion Hrun; subst. exists s'. split; [ | exact Hs' ].
    destruct (settled_fields _ _ Hs') as (_ & _ & Hth' & _).
    assert (Hs0 : settled lvl0 s0')
      by (apply (MapToPosition_settled lvl0 lvl0 s0' (cell x i) (inl tp)
                   (settled_refl lvl0) Hmp)).
    destruct (settled_fields _ _ Hs0) as (_ & _ & Hth0 & _).
    rewrite Hth', Hth0. reflexivity.
  - inversion Hrun; subst. exists s. split; [ reflexivity | exact Hs ].
Qed.

Lemma placeTile_returns (lvl : Level) (mapping : list N) (ts : list tile)
    (row x : Z) (entry : N) :
  lookup mapping (x + row * width lvl) = Some entry ->
  (entry <> 0%N ->
   (exists atlas img,
       lookup ts (Z.of_N entry - 1) = Some atlas /\ Image atlas = Some img)
   /\ (MapToPoint lvl <> None \/ supported (Orientation lvl))) ->
  exists t s, placeTile mapping ts row x lvl = Returned (t, s).
Proof.
  intros Hentry Hok. rewrite placeTile_unfold, Hentry.
  destruct (Z.leb_spec 0 (Z.of_N entry - 1)) as [Hpos | Hneg];
    [ | eauto ].
  destruct Hok as ((atlas & img & Hatlas & Himg) & Hres); [ lia | ].
  rewrite Hatlas, Himg.
  assert (Hmp : exists tp s, MapToPosition (cell x row) lvl
                             = Returned (inl tp, s)).
  { destruct (MapToPoint lvl) as [f | ] eqn:Hf.
    - rewrite (MapToPosition_set lvl f _ Hf). eauto.
    - destruct Hres as [Hset | Hsup]; [ contradiction | ].
      apply MapToPosition_supported. exact Hsup. }
  destruct Hmp as (tp & s & ->). eauto.
Qed.

(** Under [assemblable], [createLevelTiles] returns. *)
Lemma createLevelTiles_returns (lvl : Level) (layers : list layer)
    (ts : list tile) :
  assemblable lvl layers ts ->
  exists out lvl', createLevelTiles layers ts lvl = Returned (out, lvl').
Proof.
  intros Hok. unfold createLevelTiles.
  assert (Hgen : forall ls acc s,
             (forall l, In l ls -> In l layers) -> settled lvl s ->
             exists out s',
               for_range ls
                 (fun layer levelTileLayers =>
                    let tilemap := [] in
                    let mapping := TileMapping layer in
                    lvl0 <- get ;;
                    tilemap <-
                      for_upto (height lvl0)
                        (fun i tilemap =>
                           lvl1 <- get ;;
                           for_upto (width lvl1)
                             (fun x tilemap =>
                                t <- placeTile mapping ts i x ;;
                                ret (tilemap ++ [t]))
                             tilemap)
                        tilemap ;;
                    ret (levelTileLayers ++
                         [mkTileLayer (layer_Name layer) (layer_Width layer)
                            (layer_Height layer) tilemap []]))
                 acc s = Returned (out, s')
               /\ settled lvl s').
  { induction ls as [ | l ls IH]; intros acc s Hsub Hs.
    - exists acc, s. split; [ reflexivity | exact Hs ].
    - assert (Hl : In l layers) by (apply Hsub; left; reflexivity).
      destruct (settled_fields _ _ Hs) as (_ & Hh & _).
      destruct (for_loop_returns (settled lvl)
                  (fun i tilemap =>
                     lvl1 <- get ;;
                     for_upto (width lvl1)
                       (fun x tilemap =>
                          t <- placeTile (TileMapping l) ts i x ;;
                          ret (tilemap ++ [t]))
                       tilemap)
                  (Z.to_nat (height lvl)) 0 [] s)
        as (tilemap & s1 & Erows & Hs1); [ | exact Hs | ].
      { intros i acc0 s0 Hi Hs0.
        destruct (settled_fields _ _ Hs0) as (Hw0 & _).
        destruct (for_loop_returns (settled lvl)
                    (fun x tilemap =>
                       t <- placeTile (TileMapping l) ts i x ;;
                       ret (tilemap ++ [t]))
                    (Z.to_nat (width lvl)) 0 acc0 s0)
          as (row & s2 & Erow & Hs2); [ | exact Hs0 | ].
        - intros x acc1 s3 Hx Hs3.
          destruct (Hok l i x Hl ltac:(lia) ltac:(lia))
            as (entry & Hentry & Hfit).
          destruct (placeTile_returns lvl _ ts i x entry Hentry Hfit)
            as (t & s4 & Hp).
          destruct (placeTile_from_settled _ _ _ _ _ _ _ _ Hs3 Hp)
            as (s5 & Hp' & Hs5).
          exists (acc1 ++ [t]), s5. split; [ | exact Hs5 ].
          rewrite (bind_run _ _ _ _ _ Hp'). reflexivity.
        - exists row, s2. split; [ | exact Hs2 ].
          rewrite (bind_run get _ s0 s0 s0 eq_refl).
          unfold for_upto. rewrite Hw0. exact Erow. }
      destruct (IH (acc ++ [mkTileLayer (layer_Name l) (layer_Width l)
                              (layer_Height l) tilemap []]) s1)
        as (out & s' & Erest & Hs').
      { intros l' Hl'. apply Hsub. right. exact Hl'. }
      { exact Hs1. }
      exists out, s'. split; [ | exact Hs' ].
      cbn [for_range]. cbv zeta.
      rewrite (bind_run _ _ s
                 (acc ++ [mkTileLayer (layer_Name l) (layer_Width l)
                            (layer_Height l) tilemap []]) s1).
      + exact Erest.
      + rewrite (bind_run get _ s s s eq_refl).
        unfold for_upto at 1. rewrite Hh.
        rewrite (bind_run _ _ _ _ _ Erows). reflexivity. }
  destruct (Hgen layers [] lvl (fun l H => H) (settled_refl lvl))
    as (out & s' & E & _).
  exists out, s'. exact E.
Qed.

Lemma ground_run :
  result (createLevelTiles [ground] two_tiles level_2x2)
  = Returned ground_out.
Proof. vm_compute. reflexivity. Qed.

Lemma blank_cells_witness :
  exists lvl',
    createLevelTiles [ground] two_tiles level_2x2 = Returned (ground_out, lvl')
    /\ lookup (TileMapping ground) (1 + 0 * 2) = Some 0%N
    /\ (exists t,
           lookup ground_tiles (1 + 0 * 2) = Some t
           /\ Image t = None
           /\ tile_Point t = Point_zero)
    /\ forall ts' s,
         width s = 2 ->
         placeTile (TileMapping ground) ts' 0 1 s = Returned (tile_zero, s).
Proof.
  destruct (result_Returned _ _ ground_run) as [lvl' Hrun].
  exists lvl'. split; [ exact Hrun | ]. split; [ reflexivity | ].
  exact (blank_cells level_2x2 [ground] two_tiles ground_out lvl' Hrun
           0%nat ground (mkTileLayer "ground" 7 9 ground_tiles [])
           eq_refl eq_refl 0 1
           (conj (Z.le_refl 0) eq_refl) (conj (Z.le_0_1) eq_refl) eq_refl).
Defined.

(** [assemblable] is exactly what it takes: a run that returns was on
    inputs that fit. *)
Lemma createLevelTiles_returned_assemblable (lvl : Level)
    (layers : list layer) (ts : list tile) (out : list TileLayer)
    (lvl' : Level) :
  createLevelTiles layers ts lvl = Returned (out, lvl') ->
  assemblable lvl layers ts.
Proof.
  intros Hrun l row x Hin Hrow Hx.
  destruct (createLevelTiles_assembled _ _ _ _ _ Hrun) as (_ & HF).
  destruct (Forall2_In_l _ _ _ _ HF Hin) as (tl & _ & Hasm).
  destruct Hasm as (_ & _ & _ & _ & Hcells).
  destruct (Hcells row x Hrow Hx) as (t & _ & s & Hplace).
  destruct (lookup (TileMapping l) (x + row * width lvl)) as [entry | ] eqn:He.
  - exists entry. split; [ reflexivity | ]. intros Hnz.
    destruct (placeTile_image _ _ _ _ _ _ _ _ He Hnz Hplace)
      as (atlas & img & tp & Hatlas & Himg & Hmp & _).
    split; [ exists atlas, img; split; assumption | ].
    destruct (MapToPoint lvl) as [f | ] eqn:Hf; [ left; discriminate | ].
    right. destruct (supported_dec (Orientation lvl)) as [Hs | Hns];
      [ exact Hs | exfalso ].
    destruct (MapToPosition_unset lvl (cell x row) Hf)
      as [(m2p & p2m & b & Hsetup & _) | [_ E]].
    + rewrite (setupOrientation_unsupported lvl Hns) in Hsetup.
      discriminate Hsetup.
    + rewrite E in Hmp. discriminate Hmp.
  - rewrite placeTile_unfold, He in Hplace. discriminate Hplace.
Qed.

(** The layers of a run that returns, one by one. *)
Lemma createLevelTiles_layers (lvl : Level) (layers : list layer)
    (ts : list tile) (out : list TileLayer) (lvl' : Level) :
  createLevelTiles layers ts lvl = Returned (out, lvl') ->
  List.length out = List.length layers
  /\ forall k l tl,
       nth_error layers k = Some l -> nth_error out k = Some tl ->
       Name tl = layer_Name l
       /\ Width tl = layer_Width l
       /\ Height tl = layer_Height l
       /\ Z.of_nat (List.length (Tiles tl))
          = Z.max 0 (width lvl) * Z.max 0 (height lvl)
       /\ forall row x,
            0 <= row < height lvl -> 0 <= x < width lvl ->
            exists t,
              lookup (Tiles tl) (x + row * width lvl) = Some t
              /\ cell_tile lvl (TileMapping l) ts row x t
              /\ (lookup (TileMapping l) (x + row * width lvl) = Some 0%N ->
                  t = tile_zero /\ Image t = None).
Proof.
  intros Hrun.
  destruct (createLevelTiles_assembled _ _ _ _ _ Hrun) as (_ & HF).
  destruct (Forall2_nth_error _ _ _ HF) as (Hlen & Hnth).
  split; [ symmetry; exact Hlen | ].
  intros k l tl Hl Htl.
  destruct (Hnth k l tl Hl Htl) as (Hname & Hw & Hh & Htiles & Hcells).
  repeat (split; [ assumption | ]). split.
  - rewrite Htiles, Nat2Z.inj_mul.
    replace (Z.of_nat (Z.to_nat (height lvl))) with (Z.max 0 (height lvl))
      by lia.
    replace (Z.of_nat (Z.to_nat (width lvl))) with (Z.max 0 (width lvl))
      by lia.
    apply Z.mul_comm.
  - intros row x Hrow Hx.
    destruct (Hcells row x Hrow Hx) as (t & Ht & Hcell).
    exists t. repeat (split; [ assumption | ]).
    intros Hentry. destruct Hcell as (s & Hplace).
    rewrite (placeTile_blank _ _ _ _ _ Hentry) in Hplace.
    inversion Hplace; subst. split; reflexivity.
Qed.

(** C10. On a level, layers and tileset that fit, [createLevelTiles] returns
    one [TileLayer] per input layer, in order, with the name and the
    declared width and height of the layer copied; its [Tiles] has
    [width * height] entries for the cell counts of the level, whatever the
    layer declares; the entry at index [x + row * width] is the tile made
    for cell [(x, row)], and for a blank cell it is a tile without image. *)
Theorem createLevelTiles_row_major (lvl : Level) (layers : list layer)
    (ts : list tile) :
  assemblable lvl layers ts ->
  exists out lvl',
    createLevelTiles layers ts lvl = Returned (out, lvl')
    /\ List.length out = List.length layers
    /\ forall k l tl,
         nth_error layers k = Some l -> nth_error out k = Some tl ->
         Name tl = layer_Name l
         /\ Width tl = layer_Width l
         /\ Height tl = layer_Height l
         /\ Z.of_nat (List.length (Tiles tl))
            = Z.max 0 (width lvl) * Z.max 0 (height lvl)
         /\ forall row x,
              0 <= row < height lvl -> 0 <= x < width lvl ->
              exists t,
                lookup (Tiles tl) (x + row * width lvl) = Some t
                /\ cell_tile lvl (TileMapping l) ts row x t
                /\ (lookup (TileMapping l) (x + row * width lvl) = Some 0%N ->
                    t = tile_zero /\ Image t = None).
Proof.
  intros Hfit.
  destruct (createLevelTiles_returns lvl layers ts Hfit) as (out & lvl' & Hrun).
  exists out, lvl'. split; [ exact Hrun | ].
  apply (createLevelTiles_layers lvl layers ts out lvl' Hrun).
Qed.

Lemma ground_assemblable : assemblable level_2x2 [ground] two_tiles.
Proof.
  intros l row x [<- | []] Hrow Hx.
  assert (Hr : row = 0 \/ row = 1) by (simpl in Hrow; lia).
  assert (Hc : x = 0 \/ x = 1) by (simpl in Hx; lia).
  destruct Hr as [-> | ->]; destruct Hc as [-> | ->];
    (eexists; split; [ reflexivity | ]; intros Hnz;
     first [ exfalso; apply Hnz; reflexivity
           | split; [ do 2 eexists; split; reflexivity
                    | right; left; reflexivity ] ]).
Defined.

Lemma createLevelTiles_row_major_witness :
  exists out lvl',
    createLevelTiles [ground] two_tiles level_2x2 = Returned (out, lvl')
    /\ List.length out = 1%nat
    /\ forall k l tl,
         nth_error [ground] k = Some l -> nth_error out k = Some tl ->
         Name tl = layer_Name l
         /\ Width tl = layer_Width l
         /\ Height tl = layer_Height l
         /\ Z.of_nat (List.length (Tiles tl)) = 2 * 2
         /\ forall row x,
              0 <= row < 2 -> 0 <= x < 2 ->
              exists t,
                lookup (Tiles tl) (x + row * 2) = Some t
                /\ cell_tile level_2x2 (TileMapping l) two_tiles row x t
                /\ (lookup (TileMapping l) (x + row * 2) = Some 0%N ->
                    t = tile_zero /\ Image t = None).
Proof.
  exact (createLevelTiles_row_major level_2x2 [ground] two_tiles
           ground_assemblable).
Defined.

(** ** Tile ids beyond the tileset *)

(** C8 as stated fails: a mapping entry 5 on a tileset of one tile makes
    [createLevelTiles] panic on the slice index; no error value is
    returned, and nothing else is. *)
Lemma tile_index_out_of_range_is_a_panic :
  lookup (TileMapping stray_layer) (0 + 0 * 1) = Some 5%N
  /\ Z.of_nat (List.length one_tile) <= Z.of_N 5 - 1
  /\ createLevelTiles [stray_layer] one_tile level_1x1
     = Panicked (IndexOutOfRange 4 1)
  /\ forall r, createLevelTiles [stray_layer] one_tile level_1x1 <> Returned r.
Proof.
  assert (E : createLevelTiles [stray_layer] one_tile level_1x1
              = Panicked (IndexOutOfRange 4 1))
    by (vm_compute; reflexivity).
  split; [ reflexivity | ]. split; [ vm_compute; discriminate | ].
  split; [ exact E | ]. intros r. rewrite E. discriminate.
Qed.

(** C8, amended. When the mapping entry of one of the [width * height]
    cells of the level names a tile whose zero-based index is at or beyond
    the length of the tileset, [createLevelTiles] does not return: it
    panics, and so returns no layer at all. *)
Theorem tile_index_out_of_range_panics (lvl : Level) (layers : list layer)
    (ts : list tile) (l : layer) (row x : Z) (entry : N) :
  In l layers ->
  0 <= row < height lvl -> 0 <= x < width lvl ->
  lookup (TileMapping l) (x + row * width lvl) = Some entry ->
  Z.of_nat (List.length ts) <= Z.of_N entry - 1 ->
  exists p, createLevelTiles layers ts lvl = Panicked p.
Proof.
  intros Hin Hrow Hx Hentry Hbig.
  destruct (createLevelTiles layers ts lvl) as [[out lvl'] | p] eqn:Hrun;
    [ exfalso | exists p; reflexivity ].
  destruct (createLevelTiles_assembled _ _ _ _ _ Hrun) as (_ & HF).
  destruct (Forall2_In_l _ _ _ _ HF Hin) as (tl & _ & Hasm).
  destruct Hasm as (_ & _ & _ & _ & Hcells).
  destruct (Hcells row x Hrow Hx) as (t & _ & s & Hplace).
  rewrite placeTile_unfold, Hentry in Hplace.
  replace (0 <=? Z.of_N entry - 1) with true in Hplace
    by (symmetry; apply Z.leb_le; lia).
  destruct (lookup ts (Z.of_N entry - 1)) as [src | ] eqn:Hsrc;
    [ | discriminate Hplace ].
  apply lookup_Some_range in Hsrc. lia.
Qed.

Lemma tile_index_out_of_range_panics_witness :
  exists p, createLevelTiles [stray_layer] one_tile level_1x1 = Panicked p.
Proof.
  apply (tile_index_out_of_range_panics level_1x1 [stray_layer] one_tile
           stray_layer 0 0 5%N).
  - left. reflexivity.
  - split; [ apply Z.le_refl | reflexivity ].
  - split; [ apply Z.le_refl | reflexivity ].
  - reflexivity.
  - vm_compute. discriminate.
Defined.

(** ** The tiles cut from a sheet *)

Lemma wrap_in_range (z : Z) : GoInt.in_range z -> GoInt.wrap z = z.
Proof.
  unfold GoInt.in_range, GoInt.wrap, GoInt.min_int, GoInt.max_int.
  intros H. rewrite Z.mod_small; lia.
Qed.

(** On a tile index and a positive column count, Go's [/] and [%] are the
    floor division and its remainder. *)
Lemma quot_rem_tile_index (i cols : Z) :
  0 <= i <= GoInt.max_int -> 0 < cols ->
  GoInt.quot i cols = i / cols /\ GoInt.rem i cols = i mod cols.
Proof.
  intros Hi Hc. unfold GoInt.quot, GoInt.rem.
  rewrite Z.quot_div_nonneg, Z.rem_mod_nonneg by lia.
  split; [ | reflexivity ]. apply wrap_in_range.
  unfold GoInt.in_range, GoInt.min_int, GoInt.max_int in *.
  assert (0 <= i / cols) by (apply Z.div_pos; lia).
  assert (i / cols <= i) by (apply Z.div_le_upper_bound; nia).
  lia.
Qed.

(** The tile cut for index [i]: column [i % cols], row [i / cols] of the
    grid of [cols = int(setWidth)] columns, and the UV box of that cell. *)
Lemma sheetTile_uv (sheet : tilesheet) (tw th setWidth : f32) (i : Z)
    (s : Level) :
  F32.to_int setWidth <> 0 ->
  let cols := F32.to_int setWidth in
  let W := TextureResource_Width (tilesheet_Image sheet) in
  let H := TextureResource_Height (tilesheet_Image sheet) in
  let x := F32.mul (F32.of_int (GoInt.rem i cols)) tw in
  let y := F32.mul (F32.of_int (GoInt.quot i cols)) th in
  sheetTile sheet tw th setWidth i s
  = Returned
      (mkTile Point_zero
         (Some (mkTexture (TextureResource_Texture (tilesheet_Image sheet))
                  tw th
                  (mkAABB
                     (mkPoint (F32.mul x (F32.div F32.one W))
                              (F32.mul y (F32.div F32.one H)))
                     (mkPoint (F32.mul (F32.add x tw) (F32.div F32.one W))
                              (F32.mul (F32.add y th) (F32.div F32.one H))))))
         [], s).
Proof.
  intros Hc. unfold sheetTile.
  destruct (Z.eqb_spec (F32.to_int setWidth) 0) as [E | _];
    [ contradiction | reflexivity ].
Qed.

Lemma sheetTile_level (sheet : tilesheet) (tw th setWidth : f32) (i : Z)
    (s s' : Level) (t : tile) :
  sheetTile sheet tw th setWidth i s = Returned (t, s') ->
  s' = s /\ forall s0, sheetTile sheet tw th setWidth i s0 = Returned (t, s0).
Proof.
  unfold sheetTile.
  destruct (F32.to_int setWidth =? 0); [ discriminate | ].
  unfold ret. intros H. inversion H; subst. split; reflexivity.
Qed.

(** What [createTileset] makes of one sheet: [int(setWidth * setHeight)]
    tiles, where [setWidth] and [setHeight] are the [float32] quotients of
    the sheet size by the tile size, and tile [i] is [sheetTile] of [i]. *)
Lemma createTileset_sheet (sheet : tilesheet) (lvl : Level)
    (tiles : list tile) (lvl' : Level) :
  createTileset [sheet] lvl = Returned (tiles, lvl') ->
  let tw := F32.of_int (tilesheet_TileWidth sheet) in
  let th := F32.of_int (tilesheet_TileHeight sheet) in
  let setWidth := F32.div (TextureResource_Width (tilesheet_Image sheet)) tw in
  let setHeight :=
    F32.div (TextureResource_Height (tilesheet_Image sheet)) th in
  let totalTiles := F32.to_int (F32.mul setWidth setHeight) in
  Z.of_nat (List.length tiles) = Z.max 0 totalTiles
  /\ forall i, 0 <= i < totalTiles ->
       exists t, lookup tiles i = Some t
                 /\ sheetTile sheet tw th setWidth i lvl = Returned (t, lvl).
Proof.
  intros Hrun tw th setWidth setHeight totalTiles.
  unfold createTileset in Hrun. simpl in Hrun.
  apply bind_Returned in Hrun. destruct Hrun as (acc & s1 & Hloop & Hret).
  unfold ret in Hret. inversion Hret; subst. unfold for_upto in Hloop.
  apply (for_loop_chunks (fun s => s = lvl)
           (fun i chunk =>
              exists t, chunk = [t]
                        /\ sheetTile sheet tw th setWidth i lvl
                           = Returned (t, lvl)))
    in Hloop; [ | | reflexivity ].
  - destruct Hloop as (_ & chunks & -> & Hlen & Hall). simpl.
    destruct (concat_rows 1 chunks) as (Hclen & Hcnth).
    { intros k chunk Hk. destruct (Hall k chunk Hk) as (t & -> & _).
      reflexivity. }
    split.
    { rewrite Hclen, Hlen. unfold totalTiles, setHeight, setWidth, tw, th.
      lia. }
    intros i Hi.
    destruct (nth_error chunks (Z.to_nat i)) as [chunk | ] eqn:Hk.
    + destruct (Hall _ _ Hk) as (t & -> & Ht).
      replace (0 + Z.of_nat (Z.to_nat i)) with i in Ht by lia.
      exists t. split; [ | exact Ht ].
      replace i with (Z.of_nat (Z.to_nat i * 1 + 0)) by lia.
      rewrite lookup_nth_error. apply (Hcnth _ O _ Hk). lia.
    + apply nth_error_None in Hk.
      unfold totalTiles, setHeight, setWidth, tw, th in Hi. lia.
  - intros i acc0 s0 acc1 s2 -> Hbody.
    apply bind_Returned in Hbody. destruct Hbody as (t & s3 & Ht & Hret').
    unfold ret in Hret'. inversion Hret'; subst.
    destruct (sheetTile_level _ _ _ _ _ _ _ _ Ht) as (-> & Hany).
    split; [ reflexivity | ]. exists [t]. split; [ reflexivity | ].
    exists t. split; [ reflexivity | apply Hany ].
Qed.

(** The specification's sheet: 128 x 64 pixels, 32 x 32 tiles. Eight tiles,
    each 1/4 wide and 1/2 high in UV space; tile 0 starts at (0, 0) and
    tile 4 at (0, 1/2). *)
Example createTileset_128x64 :
  exists tiles,
    result (createTileset [newSheet 128 64 32 32] level_10x5) = Returned tiles
    /\ List.length tiles = 8%nat
    /\ map uv_box tiles
       = [ Some (0 # 1, 0 # 1, 1 # 4, 1 # 2);
           Some (1 # 4, 0 # 1, 1 # 2, 1 # 2);
           Some (1 # 2, 0 # 1, 3 # 4, 1 # 2);
           Some (3 # 4, 0 # 1, 1 # 1, 1 # 2);
           Some (0 # 1, 1 # 2, 1 # 4, 1 # 1);
           Some (1 # 4, 1 # 2, 1 # 2, 1 # 1);
           Some (1 # 2, 1 # 2, 3 # 4, 1 # 1);
           Some (3 # 4, 1 # 2, 1 # 1, 1 # 1) ]%Q.
Proof.
  eexists. split; [ vm_compute; reflexivity | ].
  split; vm_compute; reflexivity.
Qed.

(** C5, on sheets that are not a multiple of the tile size. A 48 x 48 sheet
    of 32 x 32 tiles has floor(48/32) * floor(48/32) = 1 whole tile; the code
    makes int(1.5 * 1.5) = 2 tiles, the second one cut from below the
    sheet (its v2 is above 1). On a 16 x 128 sheet, which has no whole tile,
    the code makes int(0.5 * 4) = 2 turns of the loop and divides by
    int(0.5) = 0 in the first: it panics. *)
Theorem createTileset_partial_tiles_not_dropped :
  (48 / 32) * (48 / 32) = 1
  /\ (exists t0 t1 u v u2 v2,
         result (createTileset [newSheet 48 48 32 32] level_10x5)
         = Returned [t0; t1]
         /\ uv_box t1 = Some (u, v, u2, v2)
         /\ (1 < v2)%Q)
  /\ (16 / 32) * (128 / 32) = 0
  /\ result (createTileset [newSheet 16 128 32 32] level_10x5)
     = Panicked DivideByZero.
Proof.
  split; [ reflexivity | ]. split.
  - do 6 eexists. split; [ vm_compute; reflexivity | ].
    split; [ vm_compute; reflexivity | ]. vm_compute. reflexivity.
  - split; [ reflexivity | ]. vm_compute. reflexivity.
Qed.

(** ** The conversions: errors, memoization, frame *)


(** After a call of [MapToPosition] the level has reached its fixed point:
    calling it again on the level it left returns the same result and
    leaves that level as it is, for the same point and for any other. *)
Theorem MapToPosition_memoizes (lvl lvl' : Level) (c : Point) r :
  MapToPosition c lvl = Returned (r, lvl') ->
  MapToPosition c lvl' = Returned (r, lvl')
  /\ forall c', exists r', MapToPosition c' lvl' = Returned (r', lvl').
Proof.
  intros Hrun. destruct (MapToPoint lvl) as [f | ] eqn:Hf.
  - rewrite (MapToPosition_set lvl f c Hf) in Hrun.
    inversion Hrun; subst. split.
    + apply MapToPosition_set. exact Hf.
    + intros c'. eexists. apply MapToPosition_set. exact Hf.
  - destruct (MapToPosition_unset lvl c Hf)
      as [(m2p & p2m & b & _ & E) | [_ E]];
      rewrite E in Hrun; inversion Hrun; subst.
    + split.
      * apply (MapToPosition_set (set_strategy lvl m2p p2m b) m2p c eq_refl).
      * intros c'. eexists.
        apply (MapToPosition_set (set_strategy lvl m2p p2m b) m2p c' eq_refl).
    + split; [ exact E | ]. intros c'.
      destruct (MapToPosition_unset lvl' c' Hf)
        as [(m2p & p2m & b & Hsetup & _) | [_ E']].
      * destruct (MapToPosition_unset lvl' c Hf)
          as [(m2p' & p2m' & b' & _ & E'') | [Hsetup' _]].
        -- rewrite E'' in E. discriminate E.
        -- rewrite Hsetup' in Hsetup. discriminate Hsetup.
      * eexists. exact E'.
Qed.

Lemma MapToPosition_memoizes_witness :
  exists pt lvl',
    MapToPosition (cell 1 2) level_iso = Returned (inl pt, lvl')
    /\ MapToPosition (cell 1 2) lvl' = Returned (inl pt, lvl')
    /\ forall c', exists r', MapToPosition c' lvl' = Returned (r', lvl').
Proof.
  destruct (MapToPosition_supported level_iso (cell 1 2))
    as (pt & lvl' & Hrun); [ right; left; reflexivity | ].
  exists pt, lvl'. split; [ exact Hrun | ].
  exact (MapToPosition_memoizes level_iso lvl' (cell 1 2) (inl pt) Hrun).
Defined.

(** Once [MapToPosition] has returned a point, the strategy is never
    resolved again: assigning another orientation string to the level, a
    supported one or not, or another tile size, changes nothing in what
    [MapToPosition] returns. *)
Theorem strategy_is_not_refreshed (lvl lvl' : Level) (c pt : Point) :
  MapToPosition c lvl = Returned (inl pt, lvl') ->
  forall c', exists pt',
    MapToPosition c' lvl' = Returned (inl pt', lvl')
    /\ (forall o,
           MapToPosition c' (set_Orientation lvl' o)
           = Returned (inl pt', set_Orientation lvl' o))
    /\ (forall tw th,
           MapToPosition c' (set_TileSize lvl' tw th)
           = Returned (inl pt', set_TileSize lvl' tw th)).
Proof.
  intros Hrun c'.
  destruct (MapToPosition_resolved _ _ _ _ Hrun) as (f & Hf & _).
  exists (placed f lvl' c'). split; [ | split ].
  - apply MapToPosition_set. exact Hf.
  - intros o. apply (MapToPosition_set (set_Orientation lvl' o) f c' Hf).
  - intros tw th. apply (MapToPosition_set (set_TileSize lvl' tw th) f c' Hf).
Qed.

Lemma strategy_is_not_refreshed_witness :
  exists pt lvl' pt',
    MapToPosition (cell 1 2) level_iso = Returned (inl pt, lvl')
    /\ MapToPosition (cell 3 0) lvl' = Returned (inl pt', lvl')
    /\ (forall o,
           MapToPosition (cell 3 0) (set_Orientation lvl' o)
           = Returned (inl pt', set_Orientation lvl' o))
    /\ (forall tw th,
           MapToPosition (cell 3 0) (set_TileSize lvl' tw th)
           = Returned (inl pt', set_TileSize lvl' tw th)).
Proof.
  destruct (MapToPosition_supported level_iso (cell 1 2))
    as (pt & lvl' & Hrun); [ right; left; reflexivity | ].
  destruct (strategy_is_not_refreshed level_iso lvl' (cell 1 2) pt Hrun
              (cell 3 0)) as (pt' & H).
  exists pt, lvl', pt'. split; [ exact Hrun | exact H ].
Defined.

Lemma same_data_refl (lvl : Level) : same_data lvl lvl.
Proof. repeat split. Qed.

Lemma same_data_set_strategy (lvl : Level) m2p p2m b :
  same_data lvl (set_strategy lvl m2p p2m b).
Proof. repeat split. Qed.

Lemma same_data_trans (a b c : Level) :
  same_data a b -> same_data b c -> same_data a c.
Proof.
  unfold same_data. intros H1 H2.
  repeat match goal with H : _ /\ _ |- _ => destruct H end.
  repeat split; congruence.
Qed.

(** The conversions write the three strategy slots and nothing else, and
    keep the invariant of the slots; on a level that satisfies it, a
    conversion that returns a point leaves all three slots set. *)
Theorem conversions_write_only_the_slots (lvl lvl' : Level) (c : Point) r :
  MapToPosition c lvl = Returned (r, lvl')
  \/ PositionToMap c lvl = Returned (r, lvl') ->
  same_data lvl lvl'
  /\ (memoized lvl ->
      memoized lvl' /\ forall pt, r = inl pt -> resolved lvl').
Proof.
  assert (Hres : forall l0 l1,
             memoized l0 ->
             setupOrientation l0 = Returned (None, l1) ->
             MapToPoint l0 = None \/ PointToMap l0 = None -> resolved l1).
  { intros l0 l1 _ Hsetup _.
    destruct (setupOrientation_cases l0) as [(m2p & p2m & b & E) | E];
      rewrite E in Hsetup; inversion Hsetup; subst.
    repeat split; discriminate. }
  assert (Hset : forall l0, memoized l0 ->
             MapToPoint l0 <> None \/ PointToMap l0 <> None -> resolved l0).
  { intros l0 [(Hm & Hp & _) | (l00 & _ & _ & _ & Hsetup)] Hsome.
    - destruct Hsome as [H | H]; contradiction.
    - destruct (setupOrientation_cases l00) as [(m2p & p2m & b & E) | E];
        rewrite E in Hsetup; inversion Hsetup; subst.
      repeat split; discriminate. }
  intros [Hrun | Hrun].
  - destruct (MapToPoint lvl) as [f | ] eqn:Hf.
    + rewrite (MapToPosition_set lvl f c Hf) in Hrun.
      inversion Hrun; subst. split; [ apply same_data_refl | ].
      intros Hinv. split; [ exact Hinv | ]. intros pt _.
      apply Hset; [ exact Hinv | left; rewrite Hf; discriminate ].
    + destruct (MapToPosition_unset lvl c Hf)
        as [(m2p & p2m & b & Hsetup & E) | [_ E]];
        rewrite E in Hrun; inversion Hrun; subst.
      * split; [ apply same_data_set_strategy | ]. intros Hinv. split.
        -- apply (memoized_after_setup lvl _ Hinv Hsetup). left. exact Hf.
        -- intros pt _. repeat split; discriminate.
      * split; [ apply same_data_refl | ]. intros Hinv.
        split; [ exact Hinv | ]. intros pt Hpt. discriminate Hpt.
  - destruct (PointToMap lvl) as [g | ] eqn:Hg.
    + rewrite (PositionToMap_set lvl g c Hg) in Hrun.
      inversion Hrun; subst. split; [ apply same_data_refl | ].
      intros Hinv. split; [ exact Hinv | ]. intros pt _.
      apply Hset; [ exact Hinv | right; rewrite Hg; discriminate ].
    + destruct (PositionToMap_unset lvl c Hg)
        as [(m2p & p2m & b & Hsetup & E) | [_ E]];
        rewrite E in Hrun; inversion Hrun; subst.
      * split; [ apply same_data_set_strategy | ]. intros Hinv. split.
        -- apply (memoized_after_setup lvl _ Hinv Hsetup). right. exact Hg.
        -- intros pt _. repeat split; discriminate.
      * split; [ apply same_data_refl | ]. intros Hinv.
        split; [ exact Hinv | ]. intros pt Hpt. discriminate Hpt.
Qed.

Lemma conversions_write_only_the_slots_witness :
  exists mp lvl',
    PositionToMap (cell 40 8) level_stag = Returned (inl mp, lvl')
    /\ same_data level_stag lvl'
    /\ memoized lvl'
    /\ resolved lvl'.
Proof.
  destruct (PositionToMap_supported level_stag (cell 40 8))
    as (mp & lvl' & Hrun); [ right; right; reflexivity | ].
  exists mp, lvl'. split; [ exact Hrun | ].
  destruct (conversions_write_only_the_slots level_stag lvl' (cell 40 8)
              (inl mp) (or_intror Hrun)) as (Hdata & Hslots).
  destruct (Hslots (or_introl (conj eq_refl (conj eq_refl eq_refl))))
    as (Hinv & Hres).
  split; [ exact Hdata | ]. split; [ exact Hinv | exact (Hres mp eq_refl) ].
Defined.

(** ** Bounds *)

(** [Bounds] does not resolve the strategy itself. On a level as loaded,
    with a supported orientation and no slot set, it panics on the [nil]
    function; after one call of [MapToPosition] it returns the box from the
    offset to the offset plus the extent, and leaves the level as it is. *)
Theorem Bounds_needs_a_conversion_first (lvl : Level) (c : Point) :
  MapToPoint lvl = None ->
  MapMaxBounds lvl = None ->
  supported (Orientation lvl) ->
  Bounds lvl = Panicked NilDereference
  /\ exists pt lvl' b,
       MapToPosition c lvl = Returned (inl pt, lvl')
       /\ MapMaxBounds lvl' = Some b
       /\ Bounds lvl'
          = Returned
              (mkAABB (Offset lvl)
                 (mkPoint
                    (F32.add (X (call_MapMaxBounds b lvl')) (X (Offset lvl)))
                    (F32.add (Y (call_MapMaxBounds b lvl')) (Y (Offset lvl)))),
               lvl').
Proof.
  intros Hm Hb Hs. split.
  - unfold Bounds, bind, get, throw. rewrite Hb. reflexivity.
  - destruct (MapToPosition_unset lvl c Hm)
      as [(m2p & p2m & b & _ & E) | [Hsetup _]].
    + exists (placed m2p lvl c), (set_strategy lvl m2p p2m b), b.
      split; [ exact E | ]. split; reflexivity.
    + destruct (setupOrientation_supported lvl Hs) as (m2p & p2m & b & E').
      rewrite E' in Hsetup. discriminate Hsetup.
Qed.

Lemma Bounds_needs_a_conversion_first_witness :
  Bounds level_10x5 = Panicked NilDereference
  /\ exists pt lvl' b,
       MapToPosition (cell 0 0) level_10x5 = Returned (inl pt, lvl')
       /\ MapMaxBounds lvl' = Some b
       /\ Bounds lvl'
          = Returned
              (mkAABB Point_zero
                 (mkPoint
                    (F32.add (X (call_MapMaxBounds b lvl')) F32.zero)
                    (F32.add (Y (call_MapMaxBounds b lvl')) F32.zero)),
               lvl').
Proof.
  exact (Bounds_needs_a_conversion_first level_10x5 (cell 0 0)
           eq_refl eq_refl (or_introl eq_refl)).
Defined.



(** ** The staggered and isometric closures *)

(** Go's [n % 2 == 1] holds of the odd [n] that are not negative. *)
Lemma rem_2_is_1 (n : Z) :
  (GoInt.rem n 2 =? 1) = (0 <=? n) && Z.odd n.
Proof.
  unfold GoInt.rem. destruct (Z.leb_spec 0 n) as [Hn | Hn]; simpl.
  - rewrite Z.rem_mod_nonneg by lia. rewrite Zmod_odd.
    destruct (Z.odd n); reflexivity.
  - apply Z.eqb_neq. assert (Z.rem n 2 <= 0) by (apply Z.rem_nonpos; lia).
    lia.
Qed.

(** On a staggered level [MapToPoint] shifts a cell by half a tile width
    exactly when the integer part of its row is odd and not negative; the
    rows below zero are never shifted. *)
Theorem staggered_mapToPoint_rows (lvl : Level) :
  Orientation lvl = "staggered"%string ->
  let tw := F32.of_int (TileWidth lvl) in
  let hw := F32.of_int (GoInt.quot (TileWidth lvl) 2) in
  let hh := F32.of_int (GoInt.quot (TileHeight lvl) 2) in
  exists lvl' mapToPoint,
    setupOrientation lvl = Returned (None, lvl')
    /\ MapToPoint lvl' = Some mapToPoint
    /\ forall x y,
         mapToPoint (mkPoint x y)
         = mkPoint
             (F32.add (F32.mul x tw)
                (if (0 <=? F32.to_int y) && Z.odd (F32.to_int y)
                 then hw else F32.of_int 0))
             (F32.mul y hh).
Proof.
  intros Ho tw hw hh.
  unfold setupOrientation, bind, get, put, ret. rewrite Ho. simpl.
  eexists. eexists. split; [ reflexivity | ]. split; [ reflexivity | ].
  intros x y. unfold staggered_MapToPoint, set_X, set_Y. simpl.
  rewrite rem_2_is_1. reflexivity.
Qed.

Lemma staggered_mapToPoint_rows_witness :
  exists lvl' mapToPoint,
    setupOrientation level_stag = Returned (None, lvl')
    /\ MapToPoint lvl' = Some mapToPoint
    /\ forall x y,
         mapToPoint (mkPoint x y)
         = mkPoint
             (F32.add (F32.mul x (F32.of_int 32))
                (if (0 <=? F32.to_int y) && Z.odd (F32.to_int y)
                 then F32.of_int 16 else F32.of_int 0))
             (F32.mul y (F32.of_int 16)).
Proof. exact (staggered_mapToPoint_rows level_stag eq_refl). Defined.



(** On a staggered level [PointToMap] takes the row from [(y - x) / th],
    and the column from [(x + y - s) / tw] with the original [y], where
    [s] is half a tile width exactly when the integer part of that row is
    odd and not negative. *)
Theorem staggered_pointToMap_rows (lvl : Level) :
  Orientation lvl = "staggered"%string ->
  let tw := F32.of_int (TileWidth lvl) in
  let th := F32.of_int (TileHeight lvl) in
  let hw := F32.of_int (GoInt.quot (TileWidth lvl) 2) in
  exists lvl' pointToMap,
    setupOrientation lvl = Returned (None, lvl')
    /\ PointToMap lvl' = Some pointToMap
    /\ forall x y,
         let row := F32.div (F32.sub y x) th in
         let s := if (0 <=? F32.to_int row) && Z.odd (F32.to_int row)
                  then hw else F32.of_int 0 in
         pointToMap (mkPoint x y)
         = mkPoint (F32.div (F32.sub (F32.add x y) s) tw) row.
Proof.
  intros Ho tw th hw.
  unfold setupOrientation, bind, get, put, ret. rewrite Ho. simpl.
  eexists. eexists. split; [ reflexivity | ]. split; [ reflexivity | ].
  intros x y. unfold staggered_PointToMap, set_X, set_Y. simpl.
  rewrite rem_2_is_1. reflexivity.
Qed.

Lemma staggered_pointToMap_rows_witness :
  exists lvl' pointToMap,
    setupOrientation level_stag = Returned (None, lvl')
    /\ PointToMap lvl' = Some pointToMap
    /\ forall x y,
         let row := F32.div (F32.sub y x) (F32.of_int 32) in
         let s := if (0 <=? F32.to_int row) && Z.odd (F32.to_int row)
                  then F32.of_int 16 else F32.of_int 0 in
         pointToMap (mkPoint x y)
         = mkPoint (F32.div (F32.sub (F32.add x y) s) (F32.of_int 32)) row.
Proof. exact (staggered_pointToMap_rows level_stag eq_refl). Defined.

(** ** createTileset: what it reads and how it composes *)

Lemma stateless_ret {A} (a : A) : stateless (ret a).
Proof. exists (Returned a). reflexivity. Qed.

Lemma stateless_throw {A} (p : panic) : stateless (@throw A p).
Proof. exists (Panicked p). reflexivity. Qed.

Lemma stateless_bind {A B} (c : M A) (k : A -> M B) :
  stateless c -> (forall a, stateless (k a)) -> stateless (bind c k).
Proof.
  intros [o Ho] Hk. destruct o as [a | p].
  - destruct (Hk a) as [o' Ho']. exists o'. intros s.
    unfold bind. rewrite Ho. apply Ho'.
  - exists (Panicked p). intros s. unfold bind. rewrite Ho. reflexivity.
Qed.

Lemma stateless_for_loop {A} (body : Z -> A -> M A) (count : nat) :
  (forall i acc, stateless (body i acc)) ->
  forall i acc, stateless (for_loop count i body acc).
Proof.
  intros Hbody. induction count as [ | count IH]; intros i acc; simpl.
  - apply stateless_ret.
  - apply stateless_bind; [ apply Hbody | intros acc'; apply IH ].
Qed.

Lemma stateless_for_range {A B} (body : B -> A -> M A) (xs : list B) :
  (forall x acc, stateless (body x acc)) ->
  forall acc, stateless (for_range xs body acc).
Proof.
  intros Hbody. induction xs as [ | x xs IH]; intros acc; simpl.
  - apply stateless_ret.
  - apply stateless_bind; [ apply Hbody | intros acc'; apply IH ].
Qed.

Lemma stateless_sheetTile sheet tw th setWidth i :
  stateless (sheetTile sheet tw th setWidth i).
Proof.
  unfold sheetTile. destruct (F32.to_int setWidth =? 0);
    [ apply stateless_throw | apply stateless_ret ].
Qed.

Lemma stateless_sheetTiles sheet acc : stateless (sheetTiles sheet acc).
Proof.
  unfold sheetTiles, for_upto. apply stateless_for_loop. intros i acc'.
  apply stateless_bind; [ apply stateless_sheetTile | ].
  intros t. apply stateless_ret.
Qed.

Lemma createTileset_sheetTiles (sheets : list tilesheet) :
  createTileset sheets = for_range sheets sheetTiles [].
Proof. reflexivity. Qed.

Lemma stateless_createTileset (sheets : list tilesheet) :
  stateless (createTileset sheets).
Proof.
  rewrite createTileset_sheetTiles. apply stateless_for_range.
  intros sheet acc. apply stateless_sheetTiles.
Qed.

Lemma stateless_result {A} (c : M A) (s : Level) (a : A) :
  stateless c -> result (c s) = Returned a ->
  forall s', c s' = Returned (a, s').
Proof.
  intros [o Ho] Hr s'. rewrite Ho in Hr. rewrite Ho.
  destruct o as [a' | p]; simpl in Hr; inversion Hr. reflexivity.
Qed.

Lemma stateless_panic {A} (c : M A) (s : Level) (p : panic) :
  stateless c -> c s = Panicked p -> forall s', c s' = Panicked p.
Proof.
  intros [o Ho] Hr s'. rewrite Ho in Hr. rewrite Ho.
  destruct o as [a' | p']; inversion Hr. reflexivity.
Qed.

Lemma for_range_app {A B} (body : B -> A -> M A) (xs ys : list B) :
  forall acc s,
    for_range (xs ++ ys) body acc s
    = (acc' <- for_range xs body acc ;; for_range ys body acc') s.
Proof.
  induction xs as [ | x xs IH]; intros acc s; simpl.
  - reflexivity.
  - unfold bind. destruct (body x acc s) as [[acc1 s1] | p];
      [ rewrite IH; reflexivity | reflexivity ].
Qed.

Lemma for_range_map_ext {A B} (body : B -> A -> M A) (g : B -> B)
    (xs : list B) :
  (forall x acc s, body (g x) acc s = body x acc s) ->
  forall acc s, for_range (map g xs) body acc s = for_range xs body acc s.
Proof.
  intros Hext. induction xs as [ | x xs IH]; intros acc s; simpl.
  - reflexivity.
  - unfold bind. rewrite Hext.
    destruct (body x acc s) as [[acc1 s1] | p]; [ apply IH | reflexivity ].
Qed.

Lemma bind_eq {A B} (c : M A) (k : A -> M B) (s : Level) :
  bind c k s = match c s with
               | Returned (a, s1) => k a s1
               | Panicked p => Panicked p
               end.
Proof. reflexivity. Qed.

Section PrependingLoops.

Context {T : Type}.
Variable f : Z -> M T.

Lemma for_loop_prepend (count : nat) :
  forall i acc s,
    for_loop count i (fun j acc0 => t <- f j ;; ret (acc0 ++ [t])) acc s
    = prepend acc
        (for_loop count i (fun j acc0 => t <- f j ;; ret (acc0 ++ [t])) [] s).
Proof.
  induction count as [ | count IH]; intros i acc s; cbn [for_loop].
  - unfold ret. simpl. rewrite app_nil_r. reflexivity.
  - rewrite !bind_eq. destruct (f i s) as [[t s1] | p]; [ | reflexivity ].
    change (ret (acc ++ [t]) s1) with (Returned (acc ++ [t], s1)).
    change (ret ([] ++ [t]) s1) with (Returned ([t], s1)).
    cbv iota beta.
    rewrite (IH (i + 1) (acc ++ [t]) s1), (IH (i + 1) [t] s1).
    destruct (for_loop count (i + 1) _ [] s1) as [[xs s2] | p]; simpl;
      [ | reflexivity ].
    rewrite <- app_assoc. reflexivity.
Qed.

End PrependingLoops.

Lemma sheetTiles_prepend (sheet : tilesheet) (acc : list tile) (s : Level) :
  sheetTiles sheet acc s = prepend acc (sheetTiles sheet [] s).
Proof. unfold sheetTiles, for_upto. apply for_loop_prepend. Qed.

Lemma createTileset_prepend (sheets : list tilesheet) :
  forall acc s,
    for_range sheets sheetTiles acc s
    = prepend acc (for_range sheets sheetTiles [] s).
Proof.
  induction sheets as [ | sheet sheets IH]; intros acc s; simpl.
  - unfold ret. simpl. rewrite app_nil_r. reflexivity.
  - rewrite !bind_eq. rewrite (sheetTiles_prepend sheet acc s).
    destruct (sheetTiles sheet [] s) as [[xs s1] | p]; simpl;
      [ | reflexivity ].
    rewrite (IH (acc ++ xs) s1), (IH xs s1).
    destruct (for_range sheets sheetTiles [] s1) as [[ys s2] | p]; simpl;
      [ | reflexivity ].
    rewrite app_assoc. reflexivity.
Qed.

(** The tileset of a list of sheets is the tileset of its first part
    followed by the tileset of the rest, so a tile keeps its index when
    sheets are added after its own; the level is not touched. When the
    first part panics, the whole does. *)
Theorem createTileset_concatenates (a b : list tilesheet) (lvl : Level)
    (ta tb : list tile) :
  result (createTileset a lvl) = Returned ta ->
  result (createTileset b lvl) = Returned tb ->
  createTileset (a ++ b) lvl = Returned (ta ++ tb, lvl).
Proof.
  intros Ha Hb.
  pose proof (stateless_result _ _ _ (stateless_createTileset a) Ha) as Ha'.
  pose proof (stateless_result _ _ _ (stateless_createTileset b) Hb) as Hb'.
  rewrite createTileset_sheetTiles in *.
  rewrite for_range_app. unfold bind. rewrite Ha'.
  rewrite createTileset_prepend, Hb'. reflexivity.
Qed.

Lemma createTileset_concatenates_witness :
  exists ta tb,
    result (createTileset [sheet_128x64] level_10x5) = Returned ta
    /\ result (createTileset [newSheet 64 32 32 32] level_10x5) = Returned tb
    /\ List.length ta = 8%nat /\ List.length tb = 2%nat
    /\ createTileset ([sheet_128x64] ++ [newSheet 64 32 32 32]) level_10x5
       = Returned (ta ++ tb, level_10x5).
Proof.
  eexists. eexists.
  split; [ vm_compute; reflexivity | ].
  split; [ vm_compute; reflexivity | ].
  split; [ reflexivity | ]. split; [ reflexivity | ].
  apply createTileset_concatenates; vm_compute; reflexivity.
Defined.

(** [createTileset] reads the image and the tile size of each sheet and
    nothing else: the first global id and the properties of the sheets, and
    the level it is given, have no part in its result, and the level is
    handed back as it was. Tile ids follow the order of the sheets, not
    their [Firstgid]. *)
Theorem createTileset_ignores_firstgid_and_level (sheets : list tilesheet)
    (gid : tilesheet -> Z) (props : tilesheet -> list (string * Property))
    (lvl1 lvl2 : Level) :
  result (createTileset
            (map (fun sheet => relabelled sheet (gid sheet) (props sheet))
                 sheets) lvl1)
  = result (createTileset sheets lvl2)
  /\ forall tiles lvl',
       createTileset sheets lvl1 = Returned (tiles, lvl') -> lvl' = lvl1.
Proof.
  destruct (stateless_createTileset sheets) as [o Ho]. split.
  - rewrite createTileset_sheetTiles.
    rewrite (for_range_map_ext sheetTiles
               (fun sheet => relabelled sheet (gid sheet) (props sheet)))
      by reflexivity.
    rewrite <- createTileset_sheetTiles. rewrite !Ho.
    destruct o as [a | p]; reflexivity.
  - intros tiles lvl' H. rewrite Ho in H.
    destruct o as [a | p]; inversion H. reflexivity.
Qed.

(** ** createTileset on one sheet *)

(** When the product of the two [float32] quotients truncates to a positive
    count while the width quotient alone truncates to 0 (a sheet narrower
    than a tile and at least as many tiles high as it takes),
    [createTileset] panics on the division by zero in [i % int(setWidth)]. *)
Theorem createTileset_divides_by_zero (sheet : tilesheet) (lvl : Level) :
  let tw := F32.of_int (tilesheet_TileWidth sheet) in
  let th := F32.of_int (tilesheet_TileHeight sheet) in
  let setWidth := F32.div (TextureResource_Width (tilesheet_Image sheet)) tw in
  let setHeight :=
    F32.div (TextureResource_Height (tilesheet_Image sheet)) th in
  0 < F32.to_int (F32.mul setWidth setHeight) ->
  F32.to_int setWidth = 0 ->
  createTileset [sheet] lvl = Panicked DivideByZero.
Proof.
  intros tw th setWidth setHeight Htotal Hcols.
  rewrite createTileset_sheetTiles. cbn [for_range]. rewrite bind_eq.
  unfold sheetTiles, for_upto. fold tw th setWidth setHeight.
  destruct (Z.to_nat (F32.to_int (F32.mul setWidth setHeight)))
    as [ | n] eqn:Hn; [ lia | ].
  cbn [for_loop]. rewrite !bind_eq. unfold sheetTile. rewrite Hcols.
  reflexivity.
Qed.

Lemma createTileset_divides_by_zero_witness :
  createTileset [sheet_16x128] level_10x5 = Panicked DivideByZero.
Proof.
  apply (createTileset_divides_by_zero sheet_16x128 level_10x5);
    vm_compute; reflexivity.
Defined.

(** In every other case [createTileset] returns, with the level as it was.
    A sheet gives [int(setWidth * setHeight)] tiles (none when that is not
    positive); tile [i] has the zero point, no property, and an image that
    shares the handle of the sheet, has the tile size of the sheet as its
    size, and has the UV box of column [i % int(setWidth)], row
    [i / int(setWidth)]. *)
Theorem createTileset_sheet_tiles (sheet : tilesheet) (lvl : Level) :
  let tw := F32.of_int (tilesheet_TileWidth sheet) in
  let th := F32.of_int (tilesheet_TileHeight sheet) in
  let W := TextureResource_Width (tilesheet_Image sheet) in
  let H := TextureResource_Height (tilesheet_Image sheet) in
  let setWidth := F32.div W tw in
  let setHeight := F32.div H th in
  let totalTiles := F32.to_int (F32.mul setWidth setHeight) in
  let cols := F32.to_int setWidth in
  totalTiles <= 0 \/ cols <> 0 ->
  exists tiles,
    createTileset [sheet] lvl = Returned (tiles, lvl)
    /\ Z.of_nat (List.length tiles) = Z.max 0 totalTiles
    /\ forall i, 0 <= i < totalTiles ->
         let x := F32.mul (F32.of_int (GoInt.rem i cols)) tw in
         let y := F32.mul (F32.of_int (GoInt.quot i cols)) th in
         lookup tiles i
         = Some (mkTile Point_zero
                   (Some (mkTexture
                            (TextureResource_Texture (tilesheet_Image sheet))
                            tw th
                            (mkAABB
                               (mkPoint (F32.mul x (F32.div F32.one W))
                                        (F32.mul y (F32.div F32.one H)))
                               (mkPoint
                                  (F32.mul (F32.add x tw) (F32.div F32.one W))
                                  (F32.mul (F32.add y th)
                                           (F32.div F32.one H))))))
                   []).
Proof.
  intros tw th W H setWidth setHeight totalTiles cols Hok.
  assert (Hret : exists tiles s,
             createTileset [sheet] lvl = Returned (tiles, s)).
  { rewrite createTileset_sheetTiles. cbn [for_range].
    destruct (for_loop_returns (fun _ => True)
                (fun i tileset =>
                   t <- sheetTile sheet tw th setWidth i ;;
                   ret (tileset ++ [t]))
                (Z.to_nat totalTiles) 0 [] lvl)
      as (out & s' & E & _); [ | exact I | ].
    - intros i acc0 s0 Hi _.
      assert (Hc : cols <> 0) by (destruct Hok as [Hle | Hc]; [ lia | exact Hc ]).
      rewrite bind_eq. rewrite (sheetTile_uv sheet tw th setWidth i s0 Hc).
      eexists. exists s0. split; [ reflexivity | exact I ].
    - exists out, s'. rewrite bind_eq.
      change (sheetTiles sheet [] lvl)
        with (for_loop (Z.to_nat totalTiles) 0
                (fun i tileset =>
                   t <- sheetTile sheet tw th setWidth i ;;
                   ret (tileset ++ [t])) [] lvl).
      rewrite E. reflexivity. }
  destruct Hret as (tiles & s & Hrun).
  assert (s = lvl) as ->.
  { destruct (stateless_createTileset [sheet]) as [o Ho].
    rewrite Ho in Hrun. destruct o as [a | p]; inversion Hrun. reflexivity. }
  exists tiles. split; [ exact Hrun | ].
  destruct (createTileset_sheet sheet lvl tiles lvl Hrun) as (Hlen & Hnth).
  split; [ exact Hlen | ].
  intros i Hi x y. destruct (Hnth i Hi) as (t & Ht & Hst).
  assert (Hc : cols <> 0).
  { destruct Hok as [Hle | Hc]; [ lia | exact Hc ]. }
  pose proof (sheetTile_uv sheet tw th setWidth i lvl Hc) as E.
  subst x y cols totalTiles setHeight setWidth W H tw th.
  cbv zeta in E, Hst. rewrite E in Hst.
  inversion Hst; subst t. exact Ht.
Qed.

Lemma createTileset_sheet_tiles_witness :
  exists tiles,
    createTileset [sheet_128x64] level_10x5 = Returned (tiles, level_10x5)
    /\ Z.of_nat (List.length tiles) = 8
    /\ forall i, 0 <= i < 8 ->
         exists t, lookup tiles i = Some t
                   /\ tile_Width t = Returned (F32.of_int 32)
                   /\ tile_Height t = Returned (F32.of_int 32)
                   /\ tile_Texture t = Returned 1.
Proof.
  destruct (createTileset_sheet_tiles sheet_128x64 level_10x5)
    as (tiles & Hrun & Hlen & Hnth).
  { right. vm_compute. discriminate. }
  exists tiles. split; [ exact Hrun | ]. split; [ exact Hlen | ].
  intros i Hi. eexists. split; [ apply (Hnth i Hi) | ].
  repeat split.
Defined.

(** ** createLevelTiles: every tile, the level, the panics *)

Lemma Forall_concat_chunks {A} (Q : A -> Prop) (chunks : list (list A)) :
  (forall k chunk, nth_error chunks k = Some chunk -> Forall Q chunk) ->
  Forall Q (concat chunks).
Proof.
  induction chunks as [ | c chunks IH]; intros H; simpl.
  - constructor.
  - apply Forall_app. split.
    + apply (H O). reflexivity.
    + apply IH. intros k chunk Hk. apply (H (S k)). exact Hk.
Qed.

Lemma Forall2_Forall_r {A B} (R : A -> B -> Prop) (Q : B -> Prop)
    (xs : list A) (ys : list B) :
  Forall2 R xs ys -> (forall x y, R x y -> Q y) -> Forall Q ys.
Proof.
  intros HF HQ. induction HF as [ | x y xs ys Hxy _ IH]; constructor.
  - apply (HQ x y Hxy).
  - exact IH.
Qed.

(** What holds of every tile [placeTile] returns holds of every tile of
    every layer [createLevelTiles] returns. *)
Lemma createLevelTiles_every_tile (Q : tile -> Prop) (ts : list tile) :
  (forall mapping i x s t s',
      placeTile mapping ts i x s = Returned (t, s') -> Q t) ->
  forall layers lvl out lvl',
    createLevelTiles layers ts lvl = Returned (out, lvl') ->
    Forall (fun tl => Forall Q (Tiles tl)) out.
Proof.
  intros HQ layers lvl out lvl' Hrun. unfold createLevelTiles in Hrun.
  apply (for_range_appends (fun _ => True)
           (fun (_ : layer) tl => Forall Q (Tiles tl))) in Hrun;
    [ | | exact I ].
  - destruct Hrun as (_ & ys & -> & HF). simpl.
    apply (Forall2_Forall_r _ _ _ _ HF). intros l tl H. exact H.
  - intros l acc s acc' s' _ Hbody.
    apply bind_Returned in Hbody. destruct Hbody as (lvl1 & s1 & Hget & Hbody).
    unfold get in Hget. inversion Hget; subst.
    apply bind_Returned in Hbody.
    destruct Hbody as (tilemap & s2 & Hloop & Hret).
    unfold ret in Hret. inversion Hret; subst.
    split; [ exact I | ]. eexists. split; [ reflexivity | ]. simpl.
    unfold for_upto in Hloop.
    apply (for_loop_chunks (fun _ => True) (fun _ row => Forall Q row))
      in Hloop; [ | | exact I ].
    + destruct Hloop as (_ & rows & -> & _ & Hall). simpl.
      apply Forall_concat_chunks. exact Hall.
    + intros i acc0 s0 acc1 s3 _ Hrow.
      apply bind_Returned in Hrow. destruct Hrow as (lvl2 & s4 & Hget' & Hrow).
      unfold get in Hget'. inversion Hget'; subst.
      unfold for_upto in Hrow.
      apply (for_loop_chunks (fun _ => True) (fun _ chunk => Forall Q chunk))
        in Hrow; [ | | exact I ].
      * destruct Hrow as (_ & chunks & -> & _ & Hall).
        split; [ exact I | ]. exists (concat chunks).
        split; [ reflexivity | ]. apply Forall_concat_chunks. exact Hall.
      * intros x acc2 s5 acc3 s6 _ Hcell.
        apply bind_Returned in Hcell. destruct Hcell as (t & s7 & Hp & Hret').
        unfold ret in Hret'. inversion Hret'; subst.
        split; [ exact I | ]. exists [t]. split; [ reflexivity | ].
        constructor; [ | constructor ]. apply (HQ _ _ _ _ _ _ Hp).
Qed.

(** No tile of a layer [createLevelTiles] returns is walkable: the
    properties of a placed tile are never filled in. *)
Theorem placed_tiles_are_never_walkable (lvl : Level) (layers : list layer)
    (ts : list tile) (out : list TileLayer) (lvl' : Level) :
  createLevelTiles layers ts lvl = Returned (out, lvl') ->
  forall tl t, In tl out -> In t (Tiles tl) ->
    tile_Properties t = [] /\ IsWalkable t = false.
Proof.
  intros Hrun tl t Htl Ht.
  assert (HF := createLevelTiles_every_tile
                  (fun t => tile_Properties t = [] /\ IsWalkable t = false) ts).
  specialize (HF ltac:(
    intros mapping i x s t0 s' Hp; rewrite placeTile_unfold in Hp;
    destruct (lookup mapping (x + i * width s)) as [entry | ];
      [ | discriminate Hp ];
    destruct (0 <=? Z.of_N entry - 1);
      [ destruct (lookup ts (Z.of_N entry - 1)) as [src | ];
          [ | discriminate Hp ];
        destruct (MapToPosition (cell x i) s) as [[[tp | e] s1] | p];
          try discriminate Hp;
        destruct (Image src) as [img | ]; [ | discriminate Hp ]
      | ];
    inversion Hp; subst; split; reflexivity) layers lvl out lvl' Hrun).
  rewrite Forall_forall in HF. specialize (HF tl Htl).
  rewrite Forall_forall in HF. apply (HF t Ht).
Qed.

Lemma placed_tiles_are_never_walkable_witness :
  exists lvl',
    createLevelTiles [ground] two_tiles level_2x2 = Returned (ground_out, lvl')
    /\ forall tl t, In tl ground_out -> In t (Tiles tl) ->
         tile_Properties t = [] /\ IsWalkable t = false.
Proof.
  destruct (result_Returned _ _ ground_run) as [lvl' Hrun].
  exists lvl'. split; [ exact Hrun | ].
  exact (placed_tiles_are_never_walkable level_2x2 [ground] two_tiles
           ground_out lvl' Hrun).
Defined.

(** Every tile of a layer [createLevelTiles] returns is either the zero
    tile, on which [Texture], [Height] and [Width] panic, or carries the
    very image of a tile of the tileset, whose handle and size those
    methods return. No image comes from anywhere else. *)
Theorem placed_tiles_share_atlas_images (lvl : Level) (layers : list layer)
    (ts : list tile) (out : list TileLayer) (lvl' : Level) :
  createLevelTiles layers ts lvl = Returned (out, lvl') ->
  forall tl t, In tl out -> In t (Tiles tl) ->
    (t = tile_zero
     /\ tile_Texture t = Panicked NilDereference
     /\ tile_Height t = Panicked NilDereference
     /\ tile_Width t = Panicked NilDereference)
    \/ (exists atlas img,
           In atlas ts /\ Image atlas = Some img /\ Image t = Some img
           /\ tile_Texture t = Returned (id img)
           /\ tile_Height t = Returned (Texture_Height img)
           /\ tile_Width t = Returned (Texture_Width img)).
Proof.
  intros Hrun tl t Htl Ht.
  assert (HF := createLevelTiles_every_tile
                  (fun t =>
                     (t = tile_zero
                      /\ tile_Texture t = Panicked NilDereference
                      /\ tile_Height t = Panicked NilDereference
                      /\ tile_Width t = Panicked NilDereference)
                     \/ (exists atlas img,
                            In atlas ts /\ Image atlas = Some img
                            /\ Image t = Some img
                            /\ tile_Texture t = Returned (id img)
                            /\ tile_Height t = Returned (Texture_Height img)
                            /\ tile_Width t = Returned (Texture_Width img)))
                  ts).
  assert (HQ : forall mapping i x s t0 s',
             placeTile mapping ts i x s = Returned (t0, s') ->
             (t0 = tile_zero
              /\ tile_Texture t0 = Panicked NilDereference
              /\ tile_Height t0 = Panicked NilDereference
              /\ tile_Width t0 = Panicked NilDereference)
             \/ (exists atlas img,
                    In atlas ts /\ Image atlas = Some img
                    /\ Image t0 = Some img
                    /\ tile_Texture t0 = Returned (id img)
                    /\ tile_Height t0 = Returned (Texture_Height img)
                    /\ tile_Width t0 = Returned (Texture_Width img))).
  { intros mapping i x s t0 s' Hp. rewrite placeTile_unfold in Hp.
    destruct (lookup mapping (x + i * width s)) as [entry | ];
      [ | discriminate Hp ].
    destruct (0 <=? Z.of_N entry - 1).
    - destruct (lookup ts (Z.of_N entry - 1)) as [src | ] eqn:Hsrc;
        [ | discriminate Hp ].
      destruct (MapToPosition (cell x i) s) as [[[tp | e] s1] | p];
        try discriminate Hp.
      destruct (Image src) as [img | ] eqn:Himg; [ | discriminate Hp ].
      inversion Hp; subst. right. exists src, img.
      split; [ | repeat split; assumption ].
      unfold lookup in Hsrc.
      destruct ((0 <=? Z.of_N entry - 1)
                && (Z.of_N entry - 1 <? Z.of_nat (List.length ts)));
        [ | discriminate Hsrc ].
      apply nth_error_In in Hsrc. exact Hsrc.
    - inversion Hp; subst. left. repeat split. }
  specialize (HF HQ layers lvl out lvl' Hrun).
  rewrite Forall_forall in HF. specialize (HF tl Htl).
  rewrite Forall_forall in HF. apply (HF t Ht).
Qed.

Lemma placed_tiles_share_atlas_images_witness :
  exists lvl',
    createLevelTiles [ground] two_tiles level_2x2 = Returned (ground_out, lvl')
    /\ forall tl t, In tl ground_out -> In t (Tiles tl) ->
         (t = tile_zero
          /\ tile_Texture t = Panicked NilDereference
          /\ tile_Height t = Panicked NilDereference
          /\ tile_Width t = Panicked NilDereference)
         \/ (exists atlas img,
                In atlas two_tiles /\ Image atlas = Some img
                /\ Image t = Some img
                /\ tile_Texture t = Returned (id img)
                /\ tile_Height t = Returned (Texture_Height img)
                /\ tile_Width t = Returned (Texture_Width img)).
Proof.
  destruct (result_Returned _ _ ground_run) as [lvl' Hrun].
  exists lvl'. split; [ exact Hrun | ].
  exact (placed_tiles_share_atlas_images level_2x2 [ground] two_tiles
           ground_out lvl' Hrun).
Defined.

Lemma settled_same_data (lvl0 s : Level) : settled lvl0 s -> same_data lvl0 s.
Proof.
  intros H. destruct (settled_strategy _ _ H)
    as [-> | (_ & m2p & p2m & b & _ & ->)].
  - apply same_data_refl.
  - apply same_data_set_strategy.
Qed.

(** [createLevelTiles] does not store the layers it makes in the level,
    and changes no field of it but the strategy slots: the level it leaves
    is the one it was given, or that level after [setupOrientation], the
    latter only when [MapToPoint] was unset. The invariant of the slots is
    kept. *)
Theorem createLevelTiles_writes_only_the_slots (lvl : Level)
    (layers : list layer) (ts : list tile) (out : list TileLayer)
    (lvl' : Level) :
  createLevelTiles layers ts lvl = Returned (out, lvl') ->
  same_data lvl lvl'
  /\ TileLayers lvl' = TileLayers lvl
  /\ (lvl' = lvl
      \/ (MapToPoint lvl = None
          /\ setupOrientation lvl = Returned (None, lvl')))
  /\ (memoized lvl -> memoized lvl').
Proof.
  intros Hrun.
  destruct (createLevelTiles_assembled _ _ _ _ _ Hrun) as (Hs & _).
  split; [ apply settled_same_data; exact Hs | ].
  split; [ symmetry; apply (settled_same_data _ _ Hs) | ].
  split; [ exact Hs | ].
  intros Hinv. destruct Hs as [-> | (Hm & Hsetup)]; [ exact Hinv | ].
  apply (memoized_after_setup lvl lvl' Hinv Hsetup). left. exact Hm.
Qed.

Lemma createLevelTiles_writes_only_the_slots_witness :
  exists lvl',
    createLevelTiles [ground] two_tiles level_2x2 = Returned (ground_out, lvl')
    /\ same_data level_2x2 lvl'
    /\ TileLayers lvl' = []
    /\ (lvl' = level_2x2
        \/ (MapToPoint level_2x2 = None
            /\ setupOrientation level_2x2 = Returned (None, lvl')))
    /\ (memoized level_2x2 -> memoized lvl').
Proof.
  destruct (result_Returned _ _ ground_run) as [lvl' Hrun].
  exists lvl'. split; [ exact Hrun | ].
  exact (createLevelTiles_writes_only_the_slots level_2x2 [ground] two_tiles
           ground_out lvl' Hrun).
Defined.

(** [createLevelTiles] returns exactly on the inputs that fit; on all
    others it panics. *)
Theorem createLevelTiles_returns_iff (lvl : Level) (layers : list layer)
    (ts : list tile) :
  (exists out lvl', createLevelTiles layers ts lvl = Returned (out, lvl'))
  <-> assemblable lvl layers ts.
Proof.
  split.
  - intros (out & lvl' & Hrun).
    apply (createLevelTiles_returned_assemblable _ _ _ _ _ Hrun).
  - apply createLevelTiles_returns.
Qed.

(** On a level whose orientation is unsupported and whose [MapToPoint] is
    unset, one cell that is not blank makes [createLevelTiles] panic: the
    error of [MapToPosition] is dropped and its [nil] point is written to. *)
Theorem createLevelTiles_unsupported_orientation_panics (lvl : Level)
    (layers : list layer) (ts : list tile) (l : layer) (row x : Z)
    (entry : N) :
  ~ supported (Orientation lvl) ->
  MapToPoint lvl = None ->
  In l layers ->
  0 <= row < height lvl -> 0 <= x < width lvl ->
  lookup (TileMapping l) (x + row * width lvl) = Some entry ->
  entry <> 0%N ->
  exists p, createLevelTiles layers ts lvl = Panicked p.
Proof.
  intros Hns Hm Hin Hrow Hx Hentry Hnz.
  destruct (createLevelTiles layers ts lvl) as [[out lvl'] | p] eqn:Hrun;
    [ exfalso | exists p; reflexivity ].
  pose proof (createLevelTiles_returned_assemblable _ _ _ _ _ Hrun) as Hfit.
  destruct (Hfit l row x Hin Hrow Hx) as (entry' & Hentry' & Hok).
  rewrite Hentry in Hentry'. inversion Hentry'; subst entry'.
  destruct (Hok Hnz) as (_ & [Hset | Hs]); contradiction.
Qed.

Lemma createLevelTiles_unsupported_orientation_panics_witness :
  exists p, createLevelTiles [short_layer] two_tiles level_hex = Panicked p.
Proof.
  apply (createLevelTiles_unsupported_orientation_panics level_hex
           [short_layer] two_tiles short_layer 0 0 1%N).
  - exact hexagonal_unsupported.
  - reflexivity.
  - left. reflexivity.
  - split; [ apply Z.le_refl | reflexivity ].
  - split; [ apply Z.le_refl | reflexivity ].
  - reflexivity.
  - discriminate.
Defined.

(** A mapping with fewer entries than the level has cells makes
    [createLevelTiles] panic, whatever the width and height the layer
    declares. *)
Theorem createLevelTiles_short_mapping_panics (lvl : Level)
    (layers : list layer) (ts : list tile) (l : layer) :
  In l layers ->
  0 < width lvl ->
  Z.of_nat (List.length (TileMapping l)) < width lvl * height lvl ->
  exists p, createLevelTiles layers ts lvl = Panicked p.
Proof.
  intros Hin Hw Hshort.
  destruct (createLevelTiles layers ts lvl) as [[out lvl'] | p] eqn:Hrun;
    [ exfalso | exists p; reflexivity ].
  pose proof (createLevelTiles_returned_assemblable _ _ _ _ _ Hrun) as Hfit.
  set (n := Z.of_nat (List.length (TileMapping l))) in *.
  assert (Hn : 0 <= n) by (unfold n; lia).
  assert (Hx : 0 <= n mod width lvl < width lvl)
    by (apply Z.mod_pos_bound; exact Hw).
  assert (Hdiv : n = width lvl * (n / width lvl) + n mod width lvl)
    by (apply Z.div_mod; lia).
  assert (Hrow : 0 <= n / width lvl < height lvl).
  { split; [ apply Z.div_pos; lia | ].
    apply Z.div_lt_upper_bound; [ exact Hw | exact Hshort ]. }
  destruct (Hfit l (n / width lvl) (n mod width lvl) Hin Hrow Hx)
    as (entry & Hentry & _).
  apply lookup_Some_range in Hentry. fold n in Hentry. lia.
Qed.

Lemma createLevelTiles_short_mapping_panics_witness :
  exists p, createLevelTiles [short_layer] two_tiles level_2x2 = Panicked p.
Proof.
  apply (createLevelTiles_short_mapping_panics level_2x2 [short_layer]
           two_tiles short_layer).
  - left. reflexivity.
  - reflexivity.
  - reflexivity.
Defined.

Section KeepingLoops.

Context {A : Type}.
Variable Inv : Level -> Prop.

Lemma for_loop_keeps (body : Z -> A -> M A) (count : nat) :
  forall i acc s out s',
    (forall j acc0 s0 acc1 s1,
        i <= j < i + Z.of_nat count -> Inv s0 ->
        body j acc0 s0 = Returned (acc1, s1) -> Inv s1) ->
    Inv s -> for_loop count i body acc s = Returned (out, s') -> Inv s'.
Proof.
  induction count as [ | count IH]; intros i acc s out s' Hbody Hinv Hrun.
  - simpl in Hrun. unfold ret in Hrun. inversion Hrun; subst. exact Hinv.
  - simpl in Hrun. apply bind_Returned in Hrun.
    destruct Hrun as (acc1 & s1 & Hstep & Hrest).
    apply (IH (i + 1) acc1 s1 out s'); [ | | exact Hrest ].
    + intros j acc0 s0 acc2 s2 Hj. apply Hbody. lia.
    + apply (Hbody i acc s acc1 s1); [ lia | exact Hinv | exact Hstep ].
Qed.

Lemma for_range_keeps {B} (body : B -> A -> M A) (xs : list B) :
  forall acc s out s',
    (forall x acc0 s0 acc1 s1,
        In x xs -> Inv s0 -> body x acc0 s0 = Returned (acc1, s1) -> Inv s1) ->
    Inv s -> for_range xs body acc s = Returned (out, s') -> Inv s'.
Proof.
  induction xs as [ | x xs IH]; intros acc s out s' Hbody Hinv Hrun.
  - simpl in Hrun. unfold ret in Hrun. inversion Hrun; subst. exact Hinv.
  - simpl in Hrun. apply bind_Returned in Hrun.
    destruct Hrun as (acc1 & s1 & Hstep & Hrest).
    apply (IH acc1 s1 out s'); [ | | exact Hrest ].
    + intros y acc0 s0 acc2 s2 Hy. apply Hbody. right. exact Hy.
    + apply (Hbody x acc s acc1 s1);
        [ left; reflexivity | exact Hinv | exact Hstep ].
Qed.

End KeepingLoops.

(** Layers whose cells are all blank are assembled on any level and with
    any tileset, also on a level whose orientation is unsupported: every
    tile is the zero tile, and the level is left exactly as it was, its
    strategy still unresolved if it was. *)
Theorem blank_layers_need_no_strategy (lvl : Level) (layers : list layer)
    (ts : list tile) :
  (forall l row x,
      In l layers -> 0 <= row < height lvl -> 0 <= x < width lvl ->
      lookup (TileMapping l) (x + row * width lvl) = Some 0%N) ->
  exists out,
    createLevelTiles layers ts lvl = Returned (out, lvl)
    /\ List.length out = List.length layers
    /\ forall k tl row x,
         nth_error out k = Some tl ->
         0 <= row < height lvl -> 0 <= x < width lvl ->
         lookup (Tiles tl) (x + row * width lvl) = Some tile_zero.
Proof.
  intros Hblank.
  assert (Hfit : assemblable lvl layers ts).
  { intros l row x Hin Hrow Hx. exists 0%N.
    split; [ apply Hblank; assumption | ]. intros Hnz. contradiction. }
  destruct (createLevelTiles_returns lvl layers ts Hfit) as (out & lvl' & Hrun).
  assert (lvl' = lvl) as ->.
  { unfold createLevelTiles in Hrun.
    apply (for_range_keeps (fun s => s = lvl)) in Hrun;
      [ exact Hrun | | reflexivity ].
    intros l acc0 s0 acc1 s1 Hin -> Hbody.
    apply bind_Returned in Hbody. destruct Hbody as (lvl1 & s2 & Hget & Hbody).
    unfold get in Hget. inversion Hget; subst.
    apply bind_Returned in Hbody.
    destruct Hbody as (tilemap & s3 & Hloop & Hret).
    unfold ret in Hret. inversion Hret; subst. unfold for_upto in Hloop.
    apply (for_loop_keeps (fun s => s = s2)) in Hloop;
      [ exact Hloop | | reflexivity ].
    intros i acc2 s4 acc3 s5 Hi -> Hrow.
    apply bind_Returned in Hrow. destruct Hrow as (lvl2 & s6 & Hget' & Hrow).
    unfold get in Hget'. inversion Hget'; subst. unfold for_upto in Hrow.
    apply (for_loop_keeps (fun s => s = s6)) in Hrow;
      [ exact Hrow | | reflexivity ].
    intros x acc4 s7 acc5 s8 Hx -> Hcell.
    apply bind_Returned in Hcell. destruct Hcell as (t & s9 & Hp & Hret').
    unfold ret in Hret'. inversion Hret'; subst.
    rewrite placeTile_blank in Hp by (apply Hblank; [ exact Hin | lia | lia ]).
    inversion Hp. reflexivity. }
  exists out. split; [ exact Hrun | ].
  destruct (createLevelTiles_layers _ _ _ _ _ Hrun) as (Hlen & Hnth).
  split; [ exact Hlen | ].
  intros k tl row x Htl Hrow Hx.
  destruct (nth_error layers k) as [l | ] eqn:Hl.
  - destruct (Hnth k l tl Hl Htl) as (_ & _ & _ & _ & Hcells).
    destruct (Hcells row x Hrow Hx) as (t & Ht & _ & Hzero).
    destruct Hzero as (-> & _); [ | exact Ht ].
    apply Hblank; [ | exact Hrow | exact Hx ].
    apply (nth_error_In _ _ Hl).
  - apply nth_error_None in Hl.
    assert (Hk : nth_error out k <> None) by (rewrite Htl; discriminate).
    apply nth_error_Some in Hk. lia.
Qed.

Lemma blank_layers_need_no_strategy_witness :
  exists out,
    createLevelTiles [blank_layer] [] (newLevel "hexagonal" 32 32 2 2 Point_zero)
    = Returned (out, newLevel "hexagonal" 32 32 2 2 Point_zero)
    /\ List.length out = 1%nat
    /\ forall k tl row x,
         nth_error out k = Some tl ->
         0 <= row < 2 -> 0 <= x < 2 ->
         lookup (Tiles tl) (x + row * 2) = Some tile_zero.
Proof.
  apply (blank_layers_need_no_strategy
           (newLevel "hexagonal" 32 32 2 2 Point_zero) [blank_layer] []).
  intros l row x [<- | []] Hrow Hx.
  assert (Hr : row = 0 \/ row = 1) by (simpl in Hrow; lia).
  assert (Hc : x = 0 \/ x = 1) by (simpl in Hx; lia).
  destruct Hr as [-> | ->]; destruct Hc as [-> | ->]; reflexivity.
Defined.

(** ** GetTile *)

Lemma PositionToMap_same_data (lvl lvl' : Level) (p : Point) r :
  PositionToMap p lvl = Returned (r, lvl') -> same_data lvl lvl'.
Proof.
  intros Hrun. destruct (PointToMap lvl) as [g | ] eqn:Hg.
  - rewrite (PositionToMap_set lvl g p Hg) in Hrun.
    inversion Hrun; subst. apply same_data_refl.
  - destruct (PositionToMap_unset lvl p Hg)
      as [(m2p & p2m & b & _ & E) | [_ E]];
      rewrite E in Hrun; inversion Hrun; subst.
    + apply same_data_set_strategy.
    + apply same_data_refl.
Qed.

(** [GetTile] on a layer that [createLevelTiles] returned reads the tile at
    the row-major index [int(mp.X) + int(mp.Y) * width] of the map point
    [mp] that [PositionToMap] gives. For a column inside the grid that is
    the tile made for the cell [(int(mp.X), int(mp.Y))]. A column at or
    beyond the width is not rejected: it runs on into the following rows,
    and the tile returned is the one of cell
    [(int(mp.X) mod width, int(mp.Y) + int(mp.X) / width)]. *)
Theorem GetTile_reads_row_major (lvl : Level) (layers : list layer)
    (ts : list tile) (out : list TileLayer) (lvl' : Level) (k : nat)
    (l : layer) (tl : TileLayer) (p mp : Point) (s : Level) :
  createLevelTiles layers ts lvl = Returned (out, lvl') ->
  nth_error layers k = Some l -> nth_error out k = Some tl ->
  PositionToMap p lvl' = Returned (inl mp, s) ->
  let a := F32.to_int (X mp) in
  let b := F32.to_int (Y mp) in
  0 <= a -> 0 <= b -> 0 < width lvl ->
  b + a / width lvl < height lvl ->
  width lvl * height lvl <= GoInt.max_int ->
  exists t,
    GetTile tl p lvl' = Returned (t, s)
    /\ cell_tile lvl (TileMapping l) ts
         (b + a / width lvl) (a mod width lvl) t
    /\ (a < width lvl -> cell_tile lvl (TileMapping l) ts b a t).
Proof.
  intros Hrun Hl Htl Hp2m a b Ha Hb Hw Hrow Hmax.
  destruct (createLevelTiles_assembled _ _ _ _ _ Hrun) as (Hs & _).
  destruct (settled_fields _ _ Hs) as (Hw' & _).
  destruct (PositionToMap_same_data _ _ _ _ Hp2m) as (_ & _ & Hws & _).
  destruct (createLevelTiles_layers _ _ _ _ _ Hrun) as (_ & Hnth).
  destruct (Hnth k l tl Hl Htl) as (_ & _ & _ & _ & Hcells).
  assert (Hx : 0 <= a mod width lvl < width lvl)
    by (apply Z.mod_pos_bound; exact Hw).
  assert (Hq : 0 <= a / width lvl) by (apply Z.div_pos; lia).
  assert (Hdiv : a = width lvl * (a / width lvl) + a mod width lvl)
    by (apply Z.div_mod; lia).
  destruct (Hcells (b + a / width lvl) (a mod width lvl)
              ltac:(lia) Hx) as (t & Ht & Hcell & _).
  assert (Hidx : a mod width lvl + (b + a / width lvl) * width lvl
                 = a + b * width lvl) by lia.
  rewrite Hidx in Ht.
  assert (Hbound : a + b * width lvl < width lvl * height lvl) by nia.
  exists t. split; [ | split ].
  - unfold GetTile. rewrite bind_eq, Hp2m. cbv iota beta.
    rewrite (bind_eq get _ s). unfold get. cbv iota beta.
    rewrite <- Hws, Hw'. fold a b.
    assert (Hmul : GoInt.mul b (width lvl) = b * width lvl).
    { apply wrap_in_range. unfold GoInt.in_range, GoInt.min_int. nia. }
    rewrite Hmul.
    assert (Hadd : GoInt.add a (b * width lvl) = a + b * width lvl).
    { apply wrap_in_range. unfold GoInt.in_range, GoInt.min_int. nia. }
    rewrite Hadd. unfold index. rewrite Ht. reflexivity.
  - exact Hcell.
  - intros Hin.
    assert (Hsmall : a / width lvl = 0) by (apply Z.div_small; lia).
    assert (Hmod : a mod width lvl = a) by (apply Z.mod_small; lia).
    rewrite Hsmall, Hmod, Z.add_0_r in Hcell. exact Hcell.
Qed.

Lemma ground_resolved_run :
  result (createLevelTiles [ground] two_tiles level_2x2_resolved)
  = Returned ground_out.
Proof. vm_compute. reflexivity. Qed.

Lemma GetTile_reads_row_major_witness :
  exists t,
    GetTile (mkTileLayer "ground" 7 9 ground_tiles []) (cell 96 0)
      level_2x2_resolved
    = Returned (t, level_2x2_resolved)
    /\ cell_tile level_2x2_resolved (TileMapping ground) two_tiles 1 1 t.
Proof.
  destruct (result_Returned _ _ ground_resolved_run) as [lvl' Hrun].
  assert (lvl' = level_2x2_resolved) as ->.
  { destruct (createLevelTiles_assembled _ _ _ _ _ Hrun) as ([E | [E _]] & _);
      [ exact E | discriminate E ]. }
  pose (mp := unplaced
                (orthogonal_PointToMap (F32.of_int 32) (F32.of_int 32))
                level_2x2_resolved (cell 96 0)).
  assert (Ha : F32.to_int (X mp) = 3) by (vm_compute; reflexivity).
  assert (Hb : F32.to_int (Y mp) = 0) by (vm_compute; reflexivity).
  destruct (GetTile_reads_row_major level_2x2_resolved [ground] two_tiles
              ground_out level_2x2_resolved 0%nat ground
              (mkTileLayer "ground" 7 9 ground_tiles []) (cell 96 0)
              mp level_2x2_resolved Hrun eq_refl eq_refl
              (PositionToMap_set level_2x2_resolved _ (cell 96 0) eq_refl))
    as (t & Hget & Hcell & _).
  - rewrite Ha. discriminate.
  - rewrite Hb. discriminate.
  - reflexivity.
  - rewrite Ha, Hb. reflexivity.
  - discriminate.
  - exists t. split; [ exact Hget | ].
    rewrite Ha, Hb in Hcell. exact Hcell.
Defined.

(** On a level whose orientation is unsupported and whose [PointToMap] is
    unset, [GetTile] panics for every layer and every point: it drops the
    error of [PositionToMap] and reads the [nil] point. The level is not
    consulted further. *)
Theorem GetTile_unsupported_orientation_panics (lvl : Level)
    (tl : TileLayer) (p : Point) :
  ~ supported (Orientation lvl) ->
  PointToMap lvl = None ->
  GetTile tl p lvl = Panicked NilDereference.
Proof.
  intros Hns Hg. unfold GetTile. rewrite bind_eq.
  destruct (PositionToMap_unset lvl p Hg)
    as [(m2p & p2m & b & Hsetup & _) | [_ E]].
  - rewrite (setupOrientation_unsupported lvl Hns) in Hsetup.
    discriminate Hsetup.
  - rewrite E. reflexivity.
Qed.

Lemma GetTile_unsupported_orientation_panics_witness :
  GetTile (mkTileLayer "ground" 7 9 ground_tiles []) (cell 96 0) level_hex
  = Panicked NilDereference.
Proof.
  exact (GetTile_unsupported_orientation_panics level_hex
           (mkTileLayer "ground" 7 9 ground_tiles []) (cell 96 0)
           hexagonal_unsupported eq_refl).
Defined.
